(** * arxiv-search: classic-API phrase translation, highlight-safe cuts
      and the fulltext client

    A shallow embedding of

    - [search/services/index/classic.py] ([classic_search],
      [_phrase_to_query], [_term_to_query]),
    - [search/services/fulltext.py] ([FulltextSession], [init_app],
      [get_session], [current_session], [retrieve]),
    - the highlighting helpers exercised by
      [search/services/index/tests/test_results.py] ([_end_safely],
      [collapse_hl_tags]), whose module is not part of the
      sources at hand and is therefore modelled from the specification,

    together with the properties stated about them. *)

From Stdlib Require Import ZArith Lia Ascii String Sorted.
From stdpp Require Import base option list strings gmap.

Set Warnings "-register-all".

(** ** Python values and exceptions *)

(** [search.domain.Field]: the searchable attributes. *)
Inductive Field :=
  | Author | Comment | Identifier | JournalReference
  | ReportNumber | SubjectCategory | Title | All.

(** [search.domain.Operator]. *)
Inductive Operator := AND | OR | ANDNOT.

(** The fragment of Python's value universe that can occur as a phrase, as
    a token of a phrase, or as a formatting argument of an exception.  The
    translator dispatches on the run-time class of a value ([isinstance])
    and on the length of tuples, so tuples are kept untyped. *)
Inductive PyVal :=
  | PField (f : Field)
  | POperator (o : Operator)
  | PStr (s : string)
  | PInt (z : Z)
  | PTuple (items : list PyVal).

(** Exceptions, by class, with the message template and the values the
    message is formatted from.  An exception of a class that a library
    defines is kept with the name of that class and with whether the
    class derives from [IOError] and from [ValueError], which is all an
    [except] clause or a caller can tell it by. *)
Inductive PyExc :=
  | ValueError (msg : string) (args : list PyVal)
  | IOError (msg : string) (args : list PyVal)
  | KeyError (key : PyVal)
  | IndexError
  | TypeError
  | LibraryError (cls : string) (io value : bool).



(** A computation either returns or raises. *)
Inductive result (A : Type) :=
  | Ok (a : A)
  | Raise (e : PyExc).
Arguments Ok {A} a.
Arguments Raise {A} e.

#[global] Instance result_ret : MRet result := fun A a => Ok a.
#[global] Instance result_bind : MBind result := fun A B k m =>
  match m with
  | Ok a => k a
  | Raise e => Raise e
  end.


Definition returned {A} (r : result A) : option A :=
  match r with Ok a => Some a | Raise _ => None end.

#[global] Instance Field_eq_dec : EqDecision Field.
Proof. solve_decision. Defined.

Definition Field_index (f : Field) : nat :=
  match f with
  | Author => 0 | Comment => 1 | Identifier => 2 | JournalReference => 3
  | ReportNumber => 4 | SubjectCategory => 5 | Title => 6 | All => 7
  end.

Definition Field_at (n : nat) : Field :=
  match n with
  | 0 => Author | 1 => Comment | 2 => Identifier | 3 => JournalReference
  | 4 => ReportNumber | 5 => SubjectCategory | 6 => Title | _ => All
  end.

#[global] Instance Field_countable : Countable Field.
Proof.
  refine (inj_countable' Field_index Field_at _).
  intros []; reflexivity.
Defined.

Definition isinstance_Field (v : PyVal) : bool :=
  match v with PField _ => true | _ => false end.

Definition isinstance_Operator (v : PyVal) : bool :=
  match v with POperator _ => true | _ => false end.

(** ** The query DSL

    [elasticsearch_dsl] is an external library; the translator only uses
    [Q()] and the operators [&], [|] and [~] on its query objects. *)
Class QueryDsl (Q : Type) := {
  MatchAll : Q;                 (* Q() *)
  q_and : Q → Q → Q;            (* a & b *)
  q_or : Q → Q → Q;             (* a | b *)
  q_inv : Q → Q;                (* ~a *)
}.

(** The key of [SEARCH_FIELDS] that the dict literal of [_term_to_query]
    pairs with each [Field]. *)
Definition index_field (f : Field) : string :=
  match f with
  | Author => "author"
  | Comment => "comments"
  | Identifier => "paper_id"
  | JournalReference => "journal_ref"
  | ReportNumber => "report_num"
  | SubjectCategory => "cross_list_category"
  | Title => "title"
  | All => "all"
  end.

(** ** [search/services/index/classic.py] *)
Section classic.
Context {Q : Type} `{QueryDsl Q}.

(** [.prepare.SEARCH_FIELDS]: a dict from index field names to query
    builders, defined outside the sources at hand. *)
Variable SEARCH_FIELDS : gmap string (PyVal → Q).

(** [SEARCH_FIELDS[key]] *)
Definition search_field (key : string) : result (PyVal → Q) :=
  match SEARCH_FIELDS !! key with
  | Some build => Ok build
  | None => Raise (KeyError (PStr key))
  end.

(** The dict literal of [_term_to_query]; its eight subscriptions are
    evaluated, in order, every time the function runs. *)
Definition FIELD_TERM_MAPPING : result (gmap Field (PyVal → Q)) :=
  author ← search_field "author";
  comments ← search_field "comments";
  paper_id ← search_field "paper_id";
  journal_ref ← search_field "journal_ref";
  report_num ← search_field "report_num";
  cross_list_category ← search_field "cross_list_category";
  title ← search_field "title";
  all ← search_field "all";
  mret (list_to_map
          [ (Author, author); (Comment, comments); (Identifier, paper_id);
            (JournalReference, journal_ref); (ReportNumber, report_num);
            (SubjectCategory, cross_list_category); (Title, title);
            (All, all) ]).

(** [FIELD_TERM_MAPPING[field]]: only members of [Field] are keys. *)
Definition mapping_get (m : gmap Field (PyVal → Q)) (field : PyVal)
  : result (PyVal → Q) :=
  match field with
  | PField f =>
      match m !! f with
      | Some build => Ok build
      | None => Raise (KeyError field)
      end
  | _ => Raise (KeyError field)
  end.

(** [_term_to_query]: [field, val = term] unpacks a sequence of exactly
    two values. *)
Definition _term_to_query (term : list PyVal) : result Q :=
  match term with
  | [field; val] =>
      m ← FIELD_TERM_MAPPING;
      build ← mapping_get m field;
      mret (build val)
  | [] | [_] =>
      Raise (ValueError "not enough values to unpack (expected 2, got %d)"
               [PInt (Z.of_nat (length term))])
  | _ => Raise (ValueError "too many values to unpack (expected 2)" [])
  end.

(** The three-way [if]/[elif] on [current_operator]. *)
Definition combine (current_operator : Operator) (q phrase_q : Q) : Q :=
  match current_operator with
  | AND => q_and q phrase_q
  | OR => q_or q phrase_q
  | ANDNOT => q_and q (q_inv phrase_q)
  end.

(** The body of the [elif isinstance(token, tuple)] branch up to the
    value of [phrase_q]; [rec] stands for the recursive call. *)
Definition operand (rec : PyVal → result Q) (token : PyVal)
    (items : list PyVal) : result Q :=
  match items with
  | [] => Raise IndexError                                (* token[0] *)
  | first :: _ =>
      if isinstance_Operator first || (length items =? 3)%nat then rec token
      else if (length items =? 2)%nat then _term_to_query items
      else Raise (ValueError "invalid phrase component: " [token])
  end.

(** The [for token in phrase] loop, on the pair
    [(q, current_operator)] of the variables it updates: an [Operator]
    replaces the current operator, a tuple is translated and combined
    with [q], anything else falls through both tests. *)
Definition fold_tokens (rec : PyVal → result Q)
  : list PyVal → Q * Operator → result (Q * Operator) :=
  fix loop tokens st :=
    match tokens with
    | [] => Ok st
    | token :: rest =>
        match token with
        | POperator o => loop rest (st.1, o)
        | PTuple items =>
            match operand rec token items with
            | Ok phrase_q => loop rest (combine st.2 st.1 phrase_q, st.2)
            | Raise e => Raise e
            end
        | _ => loop rest st
        end
    end.

(** Lines 46-69 of [_phrase_to_query]: the general case alone. *)
Definition general_case (rec : PyVal → result Q) (phrase : list PyVal)
  : result Q :=
  match fold_tokens rec phrase (MatchAll, AND) with
  | Ok st => Ok st.1
  | Raise e => Raise e
  end.

(** The guard of the base case, given that [phrase[0]] exists. *)
Definition is_base_case (phrase : list PyVal) : bool :=
  match phrase with
  | [] => false
  | first :: _ => isinstance_Field first && (length phrase =? 2)%nat
  end.

(** [_phrase_to_query] on a Python value.  The annotated argument type
    is a tuple, and every recursive call is on a tuple.  Of the other
    values, a string is a sequence of one-character strings, none of
    which is an operator or a tuple, so that the loop passes them all
    over; an integer cannot be subscripted.  What [phrase[0]] is for a
    member of [Field] or [Operator] depends on the enumerations' base
    class, which [search.domain] defines; they are taken not to be
    subscriptable. *)
Fixpoint phrase_value_to_query (phrase : PyVal) {struct phrase} : result Q :=
  match phrase with
  | PTuple items =>
      match items with
      | [] => Raise IndexError                           (* phrase[0] *)
      | _ :: _ =>
          if is_base_case items then _term_to_query items
          else general_case phrase_value_to_query items
      end
  | PStr EmptyString => Raise IndexError                 (* phrase[0] *)
  | PStr (String _ _) => Ok MatchAll
  | PField _ | POperator _ | PInt _ => Raise TypeError   (* phrase[0] *)
  end.

Definition _phrase_to_query (phrase : list PyVal) : result Q :=
  phrase_value_to_query (PTuple phrase).

(** The loop of [_phrase_to_query] run on [phrase] without the base-case
    test in front of it. *)
Definition _phrase_to_query_general (phrase : list PyVal) : result Q :=
  general_case phrase_value_to_query phrase.

End classic.

(** ** A reference query algebra

    Boolean trees over leaf matches in which the match-all query combines
    the way [elasticsearch_dsl]'s [MatchAll] does: it is the identity of
    [&], absorbing for [|], and inverts to the match-none query. *)
Module EsDsl.

Inductive Query :=
  | QMatchAll
  | QMatchNone
  | QLeaf (field : string) (val : PyVal)
  | QAnd (a b : Query)
  | QOr (a b : Query)
  | QNot (a : Query).

Definition es_and (a b : Query) : Query :=
  match a, b with
  | QMatchAll, _ => b
  | _, QMatchAll => a
  | _, _ => QAnd a b
  end.

Definition es_or (a b : Query) : Query :=
  match a, b with
  | QMatchAll, _ => QMatchAll
  | _, QMatchAll => QMatchAll
  | _, _ => QOr a b
  end.

Definition es_inv (a : Query) : Query :=
  match a with
  | QMatchAll => QMatchNone
  | QMatchNone => QMatchAll
  | _ => QNot a
  end.

#[global] Instance dsl : QueryDsl Query :=
  {| MatchAll := QMatchAll; q_and := es_and; q_or := es_or; q_inv := es_inv |}.

(** A fully provisioned [SEARCH_FIELDS]: one leaf builder per index field. *)
Definition fields : gmap string (PyVal → Query) :=
  list_to_map
    [ ("author", QLeaf "author"); ("comments", QLeaf "comments");
      ("paper_id", QLeaf "paper_id"); ("journal_ref", QLeaf "journal_ref");
      ("report_num", QLeaf "report_num");
      ("cross_list_category", QLeaf "cross_list_category");
      ("title", QLeaf "title"); ("all", QLeaf "all") ].

End EsDsl.

(** Every key the dict literal of [_term_to_query] subscripts is present. *)
Definition provisioned {Q : Type} (SEARCH_FIELDS : gmap string (PyVal → Q))
  : Prop :=
  ∀ f, is_Some (SEARCH_FIELDS !! index_field f).

(** [FIELD_TERM_MAPPING[f]] exists and is [build]. *)
Definition registered {Q : Type} `{QueryDsl Q}
    (SEARCH_FIELDS : gmap string (PyVal → Q)) (f : Field)
    (build : PyVal → Q) : Prop :=
  ∃ m, FIELD_TERM_MAPPING SEARCH_FIELDS = Ok m ∧ m !! f = Some build.

(** *** More of [classic.py] and vocabulary for its properties *)

Definition isinstance_tuple (v : PyVal) : bool :=
  match v with PTuple _ => true | _ => false end.

(** The tokens the loop of [_phrase_to_query] acts on: those that pass
    one of its two [isinstance] tests. *)
Definition acted_on (token : PyVal) : bool :=
  isinstance_Operator token || isinstance_tuple token.

(** The keys the dict literal of [_term_to_query] subscripts, in the
    order in which it does. *)
Definition mapping_keys : list string :=
  [ "author"; "comments"; "paper_id"; "journal_ref"; "report_num";
    "cross_list_category"; "title"; "all" ].

(** The phrase [(first, op, t1, op, t2, ...)]. *)
Definition chain (op : Operator) (first : PyVal) (others : list PyVal)
  : list PyVal :=
  first :: flat_map (λ t, [POperator op; t]) others.

(** The exceptions [_phrase_to_query] has a way to raise. *)
Definition phrase_error (e : PyExc) : bool :=
  match e with
  | IndexError | KeyError _ => true
  | ValueError msg _ => String.eqb msg "invalid phrase component: "
  | _ => false
  end.

(** The shapes the translator accepts without an error: a bare term, or
    a non-empty tuple each of whose tuple tokens is a pair headed by a
    [Field], or is headed by an [Operator] or has three elements and is
    itself of an accepted shape. *)
Fixpoint accepted (phrase : PyVal) {struct phrase} : bool :=
  match phrase with
  | PTuple items =>
      match items with
      | [] => false
      | _ :: _ =>
          is_base_case items
          || forallb
               (λ token,
                  match token with
                  | PTuple [] => false
                  | PTuple ((first :: _) as sub) =>
                      if isinstance_Operator first || (length sub =? 3)%nat
                      then accepted token
                      else (length sub =? 2)%nat && isinstance_Field first
                  | _ => true
                  end)
               items
      end
  | _ => false
  end.

Section classic_search.
Context {Q : Type} `{QueryDsl Q}.
Variable SEARCH_FIELDS : gmap string (PyVal → Q).

(** [elasticsearch_dsl.Search] and its method [query]. *)
Variable Search : Type.
Variable Search_query : Search → Q → Search.

(** [classic_search], on the [phrase] of its [ClassicAPIQuery]. *)
Definition classic_search (search : Search) (phrase : list PyVal)
  : result Search :=
  dsl_query ← _phrase_to_query SEARCH_FIELDS phrase;
  mret (Search_query search dsl_query).

End classic_search.

(** ** [search/services/fulltext.py] *)
Module fulltext.

(** What [response.json()] can decode to (numbers restricted to integers). *)
Inductive Json :=
  | JNull
  | JBool (b : bool)
  | JNumber (z : Z)
  | JString (s : string)
  | JArray (items : list Json)
  | JObject (members : list (string * Json)).

(** The outcome of [response.json()]. *)
Inductive Decoding :=
  | Decoded (data : Json)
  | JSONDecodeError (ex : string).

(** The part of a [requests.Response] that [retrieve] looks at. *)
Record Response := {
  status_code : Z;
  json : Decoding;
}.

(** The outcome of [requests.get(url)], as far as [retrieve] tells
    outcomes apart: a response, an [SSLError], which [retrieve] catches,
    or any other exception, which it does not. *)
Inductive GetOutcome :=
  | Responded (response : Response)
  | SSLError (ex : string)
  | Raised (e : PyExc).

Definition HTTPStatus_OK : Z := 200.

Record HTTPAdapter := { max_retries : nat }.

Record FulltextSession := {
  _session : list (string * HTTPAdapter);      (* adapters mounted by us *)
  _adapter : HTTPAdapter;
  endpoint : string;
}.

(** [s[-1]] *)
Fixpoint last_char (s : string) : option ascii :=
  match s with
  | EmptyString => None
  | String c EmptyString => Some c
  | String _ rest => last_char rest
  end.

Definition slash : ascii := "/"%char.

(** [FulltextSession.__init__] *)
Definition __init__ (endpoint : string) : result FulltextSession :=
  let adapter := {| max_retries := 2 |} in
  let session := [("https://", adapter)] in
  match last_char endpoint with
  | None => Raise IndexError                              (* endpoint[-1] *)
  | Some c =>
      let endpoint :=
        if negb (bool_decide (c = slash)) then endpoint +:+ "/"
        else endpoint in
      Ok {| _session := session; _adapter := adapter; endpoint := endpoint |}
  end.

(** The session object together with the requests sent so far. *)
Record World := {
  self : FulltextSession;
  requested : list string;
}.

Section retrieve.

(** [urllib.parse.urljoin] and [requests.get]. *)
Variable urljoin : string → string → string.
Variable requests_get : string → GetOutcome.

(** [search.domain.Fulltext], defined outside the sources at hand: its
    constructor, on keyword arguments; [None] when it rejects them. *)
Variable Fulltext : Type.
Variable Fulltext_new : list (string * Json) → option Fulltext.

(** [Fulltext] called on [data] unpacked into keyword arguments, which
    needs [data] to be a mapping. *)
Definition Fulltext_of (data : Json) : result Fulltext :=
  match data with
  | JObject members =>
      match Fulltext_new members with
      | Some ft => Ok ft
      | None => Raise TypeError
      end
  | _ => Raise TypeError
  end.

(** [FulltextSession.retrieve] *)
Definition retrieve (document_id : string) (w : World)
  : result Fulltext * World :=
  if bool_decide (document_id = "") then
    (Raise (ValueError "Invalid value for document_id" []), w)
  else
    let url := urljoin (endpoint (self w)) document_id in
    let w := {| self := self w; requested := requested w ++ [url] |} in
    match requests_get url with
    | SSLError ex => (Raise (IOError "SSL failed: %s" [PStr ex]), w)
    | Raised e => (Raise e, w)                    (* no [except] for it *)
    | Responded response =>
        if negb (status_code response =? HTTPStatus_OK)%Z then
          (Raise (IOError "%s: could not retrieve fulltext: %i"
                    [PStr document_id; PInt (status_code response)]), w)
        else
          match json response with
          | JSONDecodeError ex =>
              (Raise (IOError "%s: could not decode response: %s"
                        [PStr document_id; PStr ex]), w)
          | Decoded data => (Fulltext_of data, w)
          end
    end.

End retrieve.



(** *** The module-level functions

    [search.context] is not among the sources at hand:
    [get_application_config(app)] is taken to return the configuration
    dict of the application, and [get_application_global()] the
    attributes of [flask.g], or [None] outside an application context.
    Of those attributes this module reads and writes [fulltext] only,
    which holds a session. *)

Definition FULLTEXT_ENDPOINT : string := "FULLTEXT_ENDPOINT".

Definition default_endpoint : string := "https://fulltext.arxiv.org/fulltext/".

(** [init_app]: [config.setdefault("FULLTEXT_ENDPOINT", ...)] on the
    configuration of [app]. *)
Definition init_app (config : gmap string string) : gmap string string :=
  match config !! FULLTEXT_ENDPOINT with
  | Some _ => config
  | None => <[FULLTEXT_ENDPOINT := default_endpoint]> config
  end.

(** [get_session]: [config.get("FULLTEXT_ENDPOINT", ...)], then the
    constructor. *)
Definition get_session (config : gmap string string)
  : result FulltextSession :=
  __init__ (default default_endpoint (config !! FULLTEXT_ENDPOINT)).

(** The application as the module sees it. *)
Record AppContext := {
  config : gmap string string;
  g : option (gmap string FulltextSession);
}.

(** [current_session] *)
Definition current_session (ctx : AppContext)
  : result FulltextSession * AppContext :=
  match g ctx with
  | None => (get_session (config ctx), ctx)                 (* not g *)
  | Some attributes =>
      match attributes !! "fulltext" with
      | Some session => (Ok session, ctx)
      | None =>
          match get_session (config ctx) with
          | Ok session =>
              (Ok session,
               {| config := config ctx;
                  g := Some (<["fulltext" := session]> attributes) |})
          | Raise e => (Raise e, ctx)
          end
      end
  end.

Section module_retrieve.
Variable urljoin : string → string → string.
Variable requests_get : string → GetOutcome.
Variable Fulltext : Type.
Variable Fulltext_new : list (string * Json) → option Fulltext.

(** The module-level [retrieve]: [current_session().retrieve(document_id)],
    on the application and the requests sent so far.  The method leaves
    the session as it found it, so a cached session needs no update. *)
Definition module_retrieve (document_id : string) (ctx : AppContext)
    (sent : list string) : result Fulltext * AppContext * list string :=
  match current_session ctx with
  | (Raise e, ctx') => (Raise e, ctx', sent)
  | (Ok session, ctx') =>
      let '(outcome, w) :=
        retrieve urljoin requests_get Fulltext Fulltext_new document_id
          {| self := session; requested := sent |} in
      (outcome, ctx', requested w)
  end.

End module_retrieve.

End fulltext.

(** ** [search/services/index/highlighting.py]

    The module itself is not among the sources at hand; only its tests
    are.  Its operations are modelled from the specification.  Texts are
    strings of single-byte characters; offsets count characters. *)
Module highlighting.

(** Modelled from the spec: the kinds of span the Span Scanner of the
    missing highlighting module reports: TeX math and tags (HTML-like
    tags and the highlight tag literals alike). *)
Inductive SpanKind := Math | Tag.

(** Modelled from the spec: a span [(start, end, kind)] of the missing
    Span Scanner; it covers the offsets [start <= i < stop] of the
    text. *)
Record Span := {
  start : nat;
  stop : nat;
  kind : SpanKind;
}.

Definition dollar : ascii := "$"%char.
Definition backslash : ascii := "\"%char.
Definition less_than : ascii := "<"%char.
Definition greater_than : ascii := ">"%char.

(** Modelled from the spec: part of the Span Scanner of the missing
    highlighting module; the offset of the first [c] in [s], used to find
    the [>] that closes a tag. *)
Fixpoint index_of (c : ascii) (s : string) : option nat :=
  match s with
  | EmptyString => None
  | String a rest =>
      if Ascii.eqb a c then Some 0 else S <$> index_of c rest
  end.

(** Modelled from the spec: part of the Span Scanner of the missing
    highlighting module; the offset in [s] of the next unescaped [$],
    that is, the first one not directly preceded by a backslash;
    [escaped] tells whether the character before [s] was a backslash. *)
Fixpoint closing_dollar (escaped : bool) (s : string) : option nat :=
  match s with
  | EmptyString => None
  | String a rest =>
      if Ascii.eqb a dollar && negb escaped then Some 0
      else S <$> closing_dollar (Ascii.eqb a backslash) rest
  end.

(** Modelled from the spec: occurrence of a tag literal at the head of a
    text, for the missing highlighting module; [text.startswith(tag)]. *)
Fixpoint startswith (text tag : string) {struct tag} : bool :=
  match tag with
  | EmptyString => true
  | String a tag' =>
      match text with
      | EmptyString => false
      | String b text' => Ascii.eqb a b && startswith text' tag'
      end
  end.

(** Modelled from the spec: part of the Span Scanner of the missing
    highlighting module; does the (non-empty) highlight tag literal [tag]
    occur at the head of [text]? *)
Definition literal_at (tag text : string) : bool :=
  negb (String.eqb tag "") && startswith text tag.

(** Modelled from the spec: part of the Span Scanner of the missing
    highlighting module; the span that starts at the head of [text], if
    any, as its length and kind.  The Span Scanner of the specification
    reports occurrences of the caller's highlight start and end tag
    literals, HTML-like tags running from a [<] to the next [>], and TeX
    math running from a [$] to the next unescaped [$]; a [<] or [$]
    without its closer yields no span. *)
Definition span_at (startTag endTag text : string) : option (nat * SpanKind) :=
  if literal_at startTag text then Some (String.length startTag, Tag)
  else if literal_at endTag text then Some (String.length endTag, Tag)
  else
    match text with
    | EmptyString => None
    | String a rest =>
        if Ascii.eqb a dollar then
          (λ j, (j + 2, Math)) <$> closing_dollar false rest
        else if Ascii.eqb a less_than then
          (λ j, (j + 2, Tag)) <$> index_of greater_than rest
        else None
    end.

(** Modelled from the spec: the left-to-right scan of the Span Scanner
    of the missing highlighting module.
    [pos] is the offset of the head of [text]; [skip] counts the
    characters still covered by the span reported last, in which no new
    span may start, so that the spans come out sorted and disjoint. *)
Fixpoint scan (startTag endTag : string) (pos skip : nat) (text : string)
  : list Span :=
  match text with
  | EmptyString => []
  | String _ rest =>
      match skip with
      | S skip' => scan startTag endTag (S pos) skip' rest
      | O =>
          match span_at startTag endTag text with
          | Some (n, k) =>
              {| start := pos; stop := pos + n; kind := k |}
              :: scan startTag endTag (S pos) (n - 1) rest
          | None => scan startTag endTag (S pos) 0 rest
          end
      end
  end.

(** Modelled from the spec: [findSpans], the Span Scanner of the missing
    highlighting module, for the caller's highlight tag pair. *)
Definition findSpans (text startTag endTag : string) : list Span :=
  scan startTag endTag 0 0 text.

(** Modelled from the spec: what it is for an offset to fall inside a
    span, for the missing [_end_safely]: [offset] lies strictly between
    the two ends of [s]. *)
Definition inside (offset : Z) (s : Span) : bool :=
  (Z.of_nat (start s) <? offset)%Z && (offset <? Z.of_nat (stop s))%Z.

(** Modelled from the spec: the clamping of out-of-range sizes by the
    missing highlighting module: a negative offset becomes 0, one beyond
    the text becomes its length. *)
Definition clamp (text : string) (offset : Z) : Z :=
  Z.max 0 (Z.min offset (Z.of_nat (String.length text))).

(** Modelled from the spec: [computeSafeEnd], the missing [_end_safely]
    of the tests.  If [desiredEnd] falls inside a span the result is the end of
    that span when it is at most [tolerance] away, and its start
    otherwise; if it falls inside no span the result is [desiredEnd],
    clamped to the text. *)
Definition computeSafeEnd (text : string) (desiredEnd : Z)
    (startTag endTag : string) (tolerance : Z) : Z :=
  match List.find (inside desiredEnd) (findSpans text startTag endTag) with
  | Some s =>
      if (Z.of_nat (stop s) - desiredEnd <=? tolerance)%Z
      then Z.of_nat (stop s)
      else Z.of_nat (start s)
  | None => clamp text desiredEnd
  end.

(** Modelled from the spec: the count of occurrences of a tag in a text,
    for the missing [collapse_hl_tags]; [text.count(sub)] for a non-empty
    [sub]: occurrences are counted from the left and do not overlap;
    [skip] counts the characters still covered by the occurrence found
    last. *)
Fixpoint count_from (sub : string) (skip : nat) (text : string) : nat :=
  match text with
  | EmptyString => 0
  | String _ rest =>
      match skip with
      | S skip' => count_from sub skip' rest
      | O =>
          if startswith text sub
          then S (count_from sub (String.length sub - 1) rest)
          else count_from sub 0 rest
      end
  end.

(** Modelled from the spec: the count of occurrences of a tag in a text,
    for the missing [collapse_hl_tags]; [text.count(sub)], where the
    empty string occurs between any two characters and at both ends. *)
Definition count (sub text : string) : nat :=
  if String.eqb sub "" then S (String.length text)
  else count_from sub 0 text.

(** Modelled from the spec: [tagBalance], the missing
    [collapse_hl_tags] of the tests: the number of occurrences of the start tag minus the number of
    occurrences of the end tag. *)
Definition tagBalance (text startTag endTag : string) : Z :=
  (Z.of_nat (count startTag text) - Z.of_nat (count endTag text))%Z.

(** The rendering of a sequence of highlight tags: [true] stands for the
    start tag, [false] for the end tag. *)
Definition render (startTag endTag : string) (tags : list bool) : string :=
  foldr (λ (b : bool) acc, (if b then startTag else endTag) +:+ acc)
        EmptyString tags.

(** No [<] occurs in [s]. *)
Fixpoint no_less_than (s : string) : bool :=
  match s with
  | EmptyString => true
  | String a rest => negb (Ascii.eqb a less_than) && no_less_than rest
  end.

(** A pair of highlight tags that cannot be mistaken for one another:
    both open with their only [<], and neither is a prefix of the other. *)
Definition separable (startTag endTag : string) : bool :=
  match startTag, endTag with
  | String a startTag', String b endTag' =>
      Ascii.eqb a less_than && Ascii.eqb b less_than
      && no_less_than startTag' && no_less_than endTag'
      && negb (startswith endTag startTag)
      && negb (startswith startTag endTag)
  | _, _ => false
  end.

End highlighting.

(** ** Sample data
    the abstract of the highlighting tests and a fixed fulltext server. *)

(** The abstract of [TestResultsEndSafely.setUp]. *)
Definition sample_abstract : string :=
  "A search for the standard model (SM) Higgs boson ($\mathrm{H}$) decaying to $\mathrm{b}\overline{\mathrm{b}}$ when produced in association with an electroweak vector boson is reported for the following processes: <em>$\mathrm{b}\overline{\mathrm{b}}(\nu\nu)\mathrm{H}$</em>, $\mathrm{W}(\mu\nu)\mathrm{H}$, $\mathrm{W}(\mathrm{e} \nu)\mathrm{H}$, $\mathrm{Z}(\mu\mu)\mathrm{H}$, and $\mathrm{Z}(\mathrm{e}\mathrm{e})\mathrm{H}$.".

(** A server that answers every request with status 200 and the JSON
    array [[]]. *)
Definition array_server (url : string) : fulltext.GetOutcome :=
  fulltext.Responded
    {| fulltext.status_code := 200;
       fulltext.json := fulltext.Decoded (fulltext.JArray []) |}.

(** The members of an extraction as the fulltext service reports it. *)
Definition sample_extraction : list (string * fulltext.Json) :=
  [ ("content", fulltext.JString "A search for the standard model");
    ("version", fulltext.JString "0.3");
    ("created", fulltext.JString "2018-04-02T12:00:00") ].

(** A server that answers every request with status 200 and that
    extraction. *)
Definition object_server (url : string) : fulltext.GetOutcome :=
  fulltext.Responded
    {| fulltext.status_code := 200;
       fulltext.json := fulltext.Decoded (fulltext.JObject sample_extraction) |}.




(** A [Fulltext] that accepts any keyword arguments. *)
Definition any_fulltext (members : list (string * fulltext.Json))
  : option (list (string * fulltext.Json)) := Some members.



(** A [SEARCH_FIELDS] from which the builder of [paper_id] is missing. *)
Definition fields_without_paper_id : gmap string (PyVal → EsDsl.Query) :=
  delete "paper_id" EsDsl.fields.

(** A search as the list of the queries applied to it. *)
Definition apply_query (search : list EsDsl.Query) (q : EsDsl.Query)
  : list EsDsl.Query :=
  search ++ [q].

(** Sample terms. *)
Definition author_term : PyVal := PTuple [PField Author; PStr "copernicus"].
Definition title_term : PyVal := PTuple [PField Title; PStr "dark matter"].
Definition all_term : PyVal := PTuple [PField All; PStr "electron"].

(** The session of the default endpoint. *)
Definition default_session : fulltext.FulltextSession :=
  {| fulltext._session := [("https://", {| fulltext.max_retries := 2 |})];
     fulltext._adapter := {| fulltext.max_retries := 2 |};
     fulltext.endpoint := "https://fulltext.arxiv.org/fulltext/" |}.

(** A configuration with an endpoint of its own, without the slash. *)
Definition staging_config : gmap string string :=
  {[ "FULLTEXT_ENDPOINT" := "https://staging.arxiv.org/fulltext";
     "SERVER_NAME" := "staging.arxiv.org" ]}.

(** The session that configuration gives. *)
Definition staging_session : fulltext.FulltextSession :=
  {| fulltext._session := [("https://", {| fulltext.max_retries := 2 |})];
     fulltext._adapter := {| fulltext.max_retries := 2 |};
     fulltext.endpoint := "https://staging.arxiv.org/fulltext/" |}.

(** A configuration whose endpoint is the empty string. *)
Definition empty_endpoint_config : gmap string string :=
  {[ "FULLTEXT_ENDPOINT" := "" ]}.

(** * Properties *)

(** ** The phrase translator *)
Section classic_facts.
Context {Q : Type} `{QueryDsl Q}.
Variable SEARCH_FIELDS : gmap string (PyVal → Q).

Lemma phrase_to_query_eq (phrase : list PyVal) :
  _phrase_to_query SEARCH_FIELDS phrase =
  match phrase with
  | [] => Raise IndexError
  | _ :: _ =>
      if is_base_case phrase then _term_to_query SEARCH_FIELDS phrase
      else _phrase_to_query_general SEARCH_FIELDS phrase
  end.
Proof. destruct phrase; reflexivity. Qed.

Lemma term_to_query_registered f build val :
  registered SEARCH_FIELDS f build →
  _term_to_query SEARCH_FIELDS [PField f; val] = Ok (build val).
Proof.
  intros (m & Hm & Hf). unfold _term_to_query. rewrite Hm. simpl.
  rewrite Hf. reflexivity.
Qed.

(** With all eight keys present every [Field] has its builder. *)
Lemma provisioned_registered f build :
  provisioned SEARCH_FIELDS →
  SEARCH_FIELDS !! index_field f = Some build →
  registered SEARCH_FIELDS f build.
Proof.
  intros Hall Hf. unfold registered, FIELD_TERM_MAPPING, search_field.
  destruct (Hall Author) as [b1 H1], (Hall Comment) as [b2 H2],
    (Hall Identifier) as [b3 H3], (Hall JournalReference) as [b4 H4],
    (Hall ReportNumber) as [b5 H5], (Hall SubjectCategory) as [b6 H6],
    (Hall Title) as [b7 H7], (Hall All) as [b8 H8].
  simpl in H1, H2, H3, H4, H5, H6, H7, H8.
  rewrite H1, H2, H3, H4, H5, H6, H7, H8. simpl.
  eexists. split; [reflexivity|].
  destruct f; simpl in Hf; vm_compute; congruence.
Qed.

Lemma fold_tokens_app rec (a b : list PyVal) st :
  fold_tokens SEARCH_FIELDS rec (a ++ b) st =
  fold_tokens SEARCH_FIELDS rec a st ≫= fold_tokens SEARCH_FIELDS rec b.
Proof.
  revert st. induction a as [|token a IH]; intros st; [reflexivity|].
  simpl. destruct token; try apply IH.
  destruct (operand _ _ _ _); [apply IH | reflexivity].
Qed.

Lemma fold_tokens_operand rec token items x (rest : list PyVal) q op :
  token = PTuple items →
  operand SEARCH_FIELDS rec token items = Ok x →
  fold_tokens SEARCH_FIELDS rec (token :: rest) (q, op) =
  fold_tokens SEARCH_FIELDS rec rest (combine op q x, op).
Proof. intros -> Hx. simpl. rewrite Hx. reflexivity. Qed.

Lemma fold_tokens_operator rec o (rest : list PyVal) q op :
  fold_tokens SEARCH_FIELDS rec (POperator o :: rest) (q, op) =
  fold_tokens SEARCH_FIELDS rec rest (q, o).
Proof. reflexivity. Qed.

Lemma operand_term rec f val build :
  registered SEARCH_FIELDS f build →
  operand SEARCH_FIELDS rec (PTuple [PField f; val]) [PField f; val] =
  Ok (build val).
Proof. intros Hr. simpl. apply term_to_query_registered, Hr. Qed.

Lemma fold_tokens_raise rec token items e (rest : list PyVal) st :
  token = PTuple items →
  operand SEARCH_FIELDS rec token items = Raise e →
  fold_tokens SEARCH_FIELDS rec (token :: rest) st = Raise e.
Proof. intros -> He. simpl. rewrite He. reflexivity. Qed.

Lemma operand_invalid rec (items : list PyVal) first :
  head items = Some first →
  isinstance_Operator first = false →
  length items ≠ 2 →
  length items ≠ 3 →
  operand SEARCH_FIELDS rec (PTuple items) items
  = Raise (ValueError "invalid phrase component: " [PTuple items]).
Proof.
  intros Hfirst Hop H2 H3. destruct items as [|first' tail]; [discriminate|].
  injection Hfirst as ->. unfold operand. rewrite Hop.
  apply Nat.eqb_neq in H2, H3. rewrite H2, H3. reflexivity.
Qed.

(** A term token in the loop: one step of the fold with its leaf query. *)
Lemma fold_tokens_term rec f val build (rest : list PyVal) q op :
  registered SEARCH_FIELDS f build →
  fold_tokens SEARCH_FIELDS rec (PTuple [PField f; val] :: rest) (q, op) =
  fold_tokens SEARCH_FIELDS rec rest (combine op q (build val), op).
Proof.
  intros Hr. eapply fold_tokens_operand; [reflexivity|].
  apply operand_term, Hr.
Qed.

(** C1, as amended: on a bare term [(f, v)] the translator returns the
    leaf translation of [(f, v)].  That is also what the loop returns on
    the one-operand phrase [((f, v),)], but not what the loop returns on
    the pair [(f, v)] itself: there it meets a [Field] and a [str], skips
    both and returns the match-all query. *)
Theorem base_case_is_leaf_translation f (v : string) build :
  (∀ x : Q, q_and MatchAll x = x) →
  registered SEARCH_FIELDS f build →
  _phrase_to_query SEARCH_FIELDS [PField f; PStr v] = Ok (build (PStr v))
  ∧ _term_to_query SEARCH_FIELDS [PField f; PStr v] = Ok (build (PStr v))
  ∧ _phrase_to_query_general SEARCH_FIELDS [PTuple [PField f; PStr v]]
    = Ok (build (PStr v))
  ∧ _phrase_to_query_general SEARCH_FIELDS [PField f; PStr v] = Ok MatchAll.
Proof.
  intros Hid Hr.
  pose proof (term_to_query_registered f build (PStr v) Hr) as Ht.
  split; [|split; [|split]].
  - rewrite phrase_to_query_eq. exact Ht.
  - exact Ht.
  - unfold _phrase_to_query_general, general_case.
    rewrite (fold_tokens_term _ _ _ build) by exact Hr.
    simpl. rewrite Hid. reflexivity.
  - reflexivity.
Qed.

(** C2: an operator token only replaces the current combinator: the
    accumulator is untouched and no query is built for it; the operands
    that follow are folded in with that combinator, one after the other,
    until the next operator token.  On [(A, OR, B, AND, C)] this gives
    [(A | B) & C]. *)
Theorem operator_scopes_forward :
  (∀ x : Q, q_and MatchAll x = x) →
  (∀ rec o rest q op,
     fold_tokens SEARCH_FIELDS rec (POperator o :: rest) (q, op) =
     fold_tokens SEARCH_FIELDS rec rest (q, o))
  ∧ (∀ rec o (operands : list PyVal) (xs : list Q) rest q op,
       Forall2 (λ t x, ∃ items, t = PTuple items ∧
                        operand SEARCH_FIELDS rec t items = Ok x)
               operands xs →
       fold_tokens SEARCH_FIELDS rec (POperator o :: operands ++ rest) (q, op) =
       fold_tokens SEARCH_FIELDS rec rest (foldl (combine o) q xs, o))
  ∧ (∀ fa va fb vb fc vc builda buildb buildc,
       registered SEARCH_FIELDS fa builda →
       registered SEARCH_FIELDS fb buildb →
       registered SEARCH_FIELDS fc buildc →
       _phrase_to_query SEARCH_FIELDS
         [ PTuple [PField fa; PStr va]; POperator OR;
           PTuple [PField fb; PStr vb]; POperator AND;
           PTuple [PField fc; PStr vc] ]
       = Ok (q_and (q_or (builda (PStr va)) (buildb (PStr vb)))
                   (buildc (PStr vc)))).
Proof.
  intros Hid. split; [reflexivity|]. split.
  - intros rec o operands xs rest q op Hts. simpl.
    revert q. induction Hts as [|t x ts xs' (items & -> & Hx) _ IH];
      intros q; [reflexivity|].
    simpl. rewrite Hx. apply IH.
  - intros fa va fb vb fc vc builda buildb buildc Ha Hb Hc.
    rewrite phrase_to_query_eq.
    change (is_base_case _) with false. cbv iota.
    unfold _phrase_to_query_general, general_case.
    rewrite (fold_tokens_term _ _ _ builda) by exact Ha.
    rewrite fold_tokens_operator.
    rewrite (fold_tokens_term _ _ _ buildb) by exact Hb.
    rewrite fold_tokens_operator.
    rewrite (fold_tokens_term _ _ _ buildc) by exact Hc.
    simpl. rewrite Hid. reflexivity.
Qed.

(** C3: [(A, ANDNOT, B)] translates to [A & ~B]. *)
Theorem andnot_is_and_of_negation fa va fb vb builda buildb :
  (∀ x : Q, q_and MatchAll x = x) →
  registered SEARCH_FIELDS fa builda →
  registered SEARCH_FIELDS fb buildb →
  ∃ a b,
    _phrase_to_query SEARCH_FIELDS [PField fa; PStr va] = Ok a
    ∧ _phrase_to_query SEARCH_FIELDS [PField fb; PStr vb] = Ok b
    ∧ _phrase_to_query SEARCH_FIELDS
        [ PTuple [PField fa; PStr va]; POperator ANDNOT;
          PTuple [PField fb; PStr vb] ]
      = Ok (q_and a (q_inv b)).
Proof.
  intros Hid Ha Hb. exists (builda (PStr va)), (buildb (PStr vb)).
  split; [|split].
  - rewrite phrase_to_query_eq. apply term_to_query_registered, Ha.
  - rewrite phrase_to_query_eq. apply term_to_query_registered, Hb.
  - rewrite phrase_to_query_eq.
    change (is_base_case _) with false. cbv iota.
    unfold _phrase_to_query_general, general_case.
    rewrite (fold_tokens_term _ _ _ builda) by exact Ha.
    rewrite fold_tokens_operator.
    rewrite (fold_tokens_term _ _ _ buildb) by exact Hb.
    simpl. rewrite Hid. reflexivity.
Qed.

(** C4, as amended: in a phrase that is not itself a bare term and whose
    earlier tokens were folded without an error, a non-empty tuple token
    that does not start with an operator and has neither two nor three
    elements makes the translation raise [ValueError] on that token; no
    query is returned. *)
Theorem invalid_component_raises (pre rest items : list PyVal) first st :
  is_base_case (pre ++ PTuple items :: rest) = false →
  fold_tokens SEARCH_FIELDS (phrase_value_to_query SEARCH_FIELDS) pre
    (MatchAll, AND) = Ok st →
  head items = Some first →
  isinstance_Operator first = false →
  length items ≠ 2 →
  length items ≠ 3 →
  _phrase_to_query SEARCH_FIELDS (pre ++ PTuple items :: rest)
  = Raise (ValueError "invalid phrase component: " [PTuple items])
  ∧ returned (_phrase_to_query SEARCH_FIELDS (pre ++ PTuple items :: rest))
    = None.
Proof.
  intros Hbase Hpre Hfirst Hop H2 H3.
  assert (_phrase_to_query SEARCH_FIELDS (pre ++ PTuple items :: rest)
          = Raise (ValueError "invalid phrase component: " [PTuple items]))
    as Hraise.
  { rewrite phrase_to_query_eq, Hbase.
    destruct (pre ++ PTuple items :: rest) eqn:Heq;
      [destruct pre; discriminate|].
    rewrite <- Heq.
    unfold _phrase_to_query_general, general_case.
    rewrite fold_tokens_app, Hpre.
    change (Ok st ≫= ?k) with (k st). destruct st as [q op].
    rewrite (fold_tokens_raise _ _ _ _ _ _ eq_refl
               (operand_invalid _ _ _ Hfirst Hop H2 H3)).
    reflexivity. }
  split; [exact Hraise | rewrite Hraise; reflexivity].
Qed.

(** C5: an operand that follows a leading [OR] is combined by [|] with
    the match-all accumulator, so the whole translation is the match-all
    query; after a leading [ANDNOT] the translation is the match-all
    accumulator and-ed with the negated operand. *)
Theorem leading_operator_is_degenerate f (v : string) build :
  (∀ x : Q, q_or MatchAll x = MatchAll) →
  registered SEARCH_FIELDS f build →
  (∀ rec rest,
     fold_tokens SEARCH_FIELDS rec
       (POperator OR :: PTuple [PField f; PStr v] :: rest) (MatchAll, AND)
     = fold_tokens SEARCH_FIELDS rec rest
         (q_or MatchAll (build (PStr v)), OR))
  ∧ _phrase_to_query SEARCH_FIELDS [POperator OR; PTuple [PField f; PStr v]]
    = Ok MatchAll
  ∧ _phrase_to_query SEARCH_FIELDS
      [POperator ANDNOT; PTuple [PField f; PStr v]]
    = Ok (q_and MatchAll (q_inv (build (PStr v)))).
Proof.
  intros Hor Hr. split; [|split].
  - intros rec rest. rewrite fold_tokens_operator.
    rewrite (fold_tokens_term _ _ _ build) by exact Hr. reflexivity.
  - rewrite phrase_to_query_eq.
    change (is_base_case _) with false. cbv iota.
    unfold _phrase_to_query_general, general_case.
    rewrite fold_tokens_operator.
    rewrite (fold_tokens_term _ _ _ build) by exact Hr.
    simpl. rewrite Hor. reflexivity.
  - rewrite phrase_to_query_eq.
    change (is_base_case _) with false. cbv iota.
    unfold _phrase_to_query_general, general_case.
    rewrite fold_tokens_operator.
    rewrite (fold_tokens_term _ _ _ build) by exact Hr.
    reflexivity.
Qed.

End classic_facts.

(** *** The translator on the reference algebra *)

Lemma es_match_all_and (x : EsDsl.Query) : q_and MatchAll x = x.
Proof. reflexivity. Qed.

Lemma es_match_all_or (x : EsDsl.Query) : q_or MatchAll x = MatchAll.
Proof. reflexivity. Qed.

Lemma es_registered (f : Field) :
  registered EsDsl.fields f (EsDsl.QLeaf (index_field f)).
Proof.
  eexists. split; [vm_compute; reflexivity|]. destruct f; reflexivity.
Qed.

(** C1 as stated fails: on the bare term [(Title, "x")] the base case
    returns the title leaf, the loop run on the same pair returns the
    match-all query. *)
Lemma base_case_is_not_a_shortcut :
  registered EsDsl.fields Title (EsDsl.QLeaf "title")
  ∧ _phrase_to_query EsDsl.fields [PField Title; PStr "x"]
    = Ok (EsDsl.QLeaf "title" (PStr "x"))
  ∧ _phrase_to_query_general EsDsl.fields [PField Title; PStr "x"]
    = Ok EsDsl.QMatchAll
  ∧ _phrase_to_query EsDsl.fields [PField Title; PStr "x"]
    ≠ _phrase_to_query_general EsDsl.fields [PField Title; PStr "x"].
Proof.
  split; [apply (es_registered Title)|].
  split; [vm_compute; reflexivity|].
  split; [vm_compute; reflexivity|].
  vm_compute. discriminate.
Qed.

Lemma base_case_is_leaf_translation_witness :
  (∀ x : EsDsl.Query, q_and MatchAll x = x)
  ∧ registered EsDsl.fields Title (EsDsl.QLeaf "title")
  ∧ _phrase_to_query EsDsl.fields [PField Title; PStr "x"]
    = Ok (EsDsl.QLeaf "title" (PStr "x")).
Proof.
  split; [exact es_match_all_and|].
  split; [exact (es_registered Title)|].
  exact (proj1 (base_case_is_leaf_translation EsDsl.fields Title "x"
                  (EsDsl.QLeaf "title") es_match_all_and
                  (es_registered Title))).
Defined.

Lemma operator_scopes_forward_witness :
  (∀ x : EsDsl.Query, q_and MatchAll x = x)
  ∧ _phrase_to_query EsDsl.fields
      [ PTuple [PField Author; PStr "a"]; POperator OR;
        PTuple [PField Title; PStr "b"]; POperator AND;
        PTuple [PField All; PStr "c"] ]
    = Ok (EsDsl.QAnd (EsDsl.QOr (EsDsl.QLeaf "author" (PStr "a"))
                                (EsDsl.QLeaf "title" (PStr "b")))
                     (EsDsl.QLeaf "all" (PStr "c"))).
Proof.
  split; [exact es_match_all_and|].
  exact (proj2 (proj2 (operator_scopes_forward EsDsl.fields es_match_all_and))
           Author "a" Title "b" All "c" _ _ _
           (es_registered Author) (es_registered Title) (es_registered All)).
Defined.

Lemma andnot_is_and_of_negation_witness :
  (∀ x : EsDsl.Query, q_and MatchAll x = x)
  ∧ registered EsDsl.fields Author (EsDsl.QLeaf "author")
  ∧ registered EsDsl.fields Title (EsDsl.QLeaf "title")
  ∧ ∃ a b,
      _phrase_to_query EsDsl.fields [PField Author; PStr "a"] = Ok a
      ∧ _phrase_to_query EsDsl.fields [PField Title; PStr "b"] = Ok b
      ∧ _phrase_to_query EsDsl.fields
          [ PTuple [PField Author; PStr "a"]; POperator ANDNOT;
            PTuple [PField Title; PStr "b"] ]
        = Ok (q_and a (q_inv b)).
Proof.
  split; [exact es_match_all_and|].
  split; [exact (es_registered Author)|].
  split; [exact (es_registered Title)|].
  exact (andnot_is_and_of_negation EsDsl.fields Author "a" Title "b" _ _
           es_match_all_and (es_registered Author) (es_registered Title)).
Defined.

(** C4 as stated fails: a token that is a bare string is skipped and a
    query is returned; a pair of strings is looked up as a term and raises
    [KeyError], not the error of malformed phrases. *)
Lemma unrecognised_token_not_reported :
  _phrase_to_query EsDsl.fields [PStr "x"] = Ok EsDsl.QMatchAll
  ∧ _phrase_to_query EsDsl.fields
      [PTuple [PField Title; PStr "t"]; PStr "x"]
    = Ok (EsDsl.QLeaf "title" (PStr "t"))
  ∧ _phrase_to_query EsDsl.fields [PTuple [PStr "x"; PStr "y"]]
    = Raise (KeyError (PStr "x")).
Proof. repeat split. Qed.

Lemma invalid_component_raises_witness :
  _phrase_to_query EsDsl.fields
    ([PTuple [PField Title; PStr "t"]; POperator OR]
     ++ PTuple [PStr "x"] :: [PTuple [PField Author; PStr "a"]])
  = Raise (ValueError "invalid phrase component: " [PTuple [PStr "x"]])
  ∧ returned
      (_phrase_to_query EsDsl.fields
         ([PTuple [PField Title; PStr "t"]; POperator OR]
          ++ PTuple [PStr "x"] :: [PTuple [PField Author; PStr "a"]]))
    = None.
Proof.
  apply (invalid_component_raises EsDsl.fields
           [PTuple [PField Title; PStr "t"]; POperator OR]
           [PTuple [PField Author; PStr "a"]] [PStr "x"] (PStr "x")
           (EsDsl.QLeaf "title" (PStr "t"), OR));
    [reflexivity | reflexivity | reflexivity | reflexivity
    | simpl; lia | simpl; lia].
Defined.

Lemma leading_operator_is_degenerate_witness :
  (∀ x : EsDsl.Query, q_or MatchAll x = MatchAll)
  ∧ registered EsDsl.fields Title (EsDsl.QLeaf "title")
  ∧ _phrase_to_query EsDsl.fields
      [POperator OR; PTuple [PField Title; PStr "t"]]
    = Ok EsDsl.QMatchAll
  ∧ _phrase_to_query EsDsl.fields
      [POperator ANDNOT; PTuple [PField Title; PStr "t"]]
    = Ok (EsDsl.QNot (EsDsl.QLeaf "title" (PStr "t"))).
Proof.
  split; [exact es_match_all_or|].
  split; [exact (es_registered Title)|].
  exact (proj2 (leading_operator_is_degenerate EsDsl.fields Title "t"
                  (EsDsl.QLeaf "title") es_match_all_or
                  (es_registered Title))).
Defined.

(** ** The fulltext client *)
Section fulltext_facts.
Import fulltext.
Variable urljoin : string → string → string.
Variable requests_get : string → GetOutcome.
Variable Fulltext : Type.
Variable Fulltext_new : list (string * Json) → option Fulltext.

Local Abbreviation run := (retrieve urljoin requests_get Fulltext Fulltext_new).

Lemma last_char_append (s : string) (c : ascii) :
  last_char (s +:+ String c EmptyString) = Some c.
Proof.
  induction s as [|a s IH]; [reflexivity|].
  simpl. rewrite IH. destruct (s +:+ String c EmptyString) eqn:E; [|reflexivity].
  destruct s; discriminate.
Qed.

Lemma last_char_nonempty (s : string) : s ≠ "" → is_Some (last_char s).
Proof.
  induction s as [|a s IH]; [congruence|]. intros _. simpl.
  destruct s; [eexists; reflexivity|]. apply IH. discriminate.
Qed.

Lemma retrieve_empty w :
  run "" w = (Raise (ValueError "Invalid value for document_id" []), w).
Proof. reflexivity. Qed.


(** [retrieve] leaves the session object as it found it. *)
Lemma retrieve_self document_id w : self (run document_id w).2 = self w.
Proof.
  unfold retrieve. case_bool_decide; [reflexivity|].
  destruct (requests_get _) as [response|ex|e]; [|reflexivity|reflexivity].
  destruct (negb _); [reflexivity|].
  destruct (json response); reflexivity.
Qed.


(** C10: a session built from a non-empty endpoint stores it with a
    trailing slash, appended exactly when it was missing; building one
    from the empty string raises [IndexError]; [retrieve] does not change
    the session. *)
Theorem endpoint_ends_with_slash :
  (∀ ep, ep ≠ "" →
     ∃ session,
       __init__ ep = Ok session
       ∧ last_char (endpoint session) = Some slash
       ∧ endpoint session =
         if bool_decide (last_char ep = Some slash) then ep else ep +:+ "/")
  ∧ __init__ "" = Raise IndexError
  ∧ (∀ document_id w, self (run document_id w).2 = self w).
Proof.
  split; [|split; [reflexivity | apply retrieve_self]].
  intros ep Hep. destruct (last_char_nonempty ep Hep) as [c Hc].
  unfold __init__. rewrite Hc. eexists. split; [reflexivity|]. simpl.
  destruct (decide (c = slash)) as [->|Hne].
  - rewrite !bool_decide_eq_true_2 by reflexivity. simpl.
    split; [exact Hc | reflexivity].
  - rewrite (bool_decide_eq_false_2 (c = slash)) by exact Hne.
    rewrite bool_decide_eq_false_2 by congruence. simpl.
    split; [apply last_char_append | reflexivity].
Qed.

End fulltext_facts.

(** *** The client against a fixed server *)



Lemma endpoint_ends_with_slash_witness :
  "https://fulltext.arxiv.org/fulltext" ≠ ""
  ∧ ∃ session,
      fulltext.__init__ "https://fulltext.arxiv.org/fulltext" = Ok session
      ∧ fulltext.endpoint session = "https://fulltext.arxiv.org/fulltext/".
Proof.
  split; [discriminate|].
  destruct (proj1 (endpoint_ends_with_slash String.append array_server
                     (list (string * fulltext.Json)) any_fulltext)
              "https://fulltext.arxiv.org/fulltext" ltac:(discriminate))
    as (session & Hinit & _ & Hep).
  exists session. split; [exact Hinit | exact Hep].
Defined.

(** ** Highlight-safe cuts *)
Section highlighting_facts.
Import highlighting.

(** *** Strings *)




(** *** The Span Scanner *)








(** *** [computeSafeEnd] *)



Lemma inside_bounds offset s :
  inside offset s = true ↔
  (Z.of_nat (start s) < offset < Z.of_nat (stop s))%Z.
Proof.
  unfold inside. rewrite andb_true_iff, !Z.ltb_lt. reflexivity.
Qed.




(** *** [tagBalance] *)

Lemma count_nonempty (sub text : string) :
  sub ≠ EmptyString → count sub text = count_from sub 0 text.
Proof. intros Hne. unfold count. destruct sub; [congruence | reflexivity]. Qed.

(** Characters covered by an occurrence are passed over. *)
Lemma count_from_skip (sub a rest : string) :
  count_from sub (String.length a) (a +:+ rest) = count_from sub 0 rest.
Proof. induction a as [|x a IH]; simpl; [destruct rest|]; done. Qed.

Lemma startswith_append (a rest : string) : startswith (a +:+ rest) a = true.
Proof.
  induction a as [|x a IH]; simpl; [reflexivity|].
  rewrite Ascii.eqb_refl. exact IH.
Qed.

(** Two strings of which neither is a prefix of the other differ before
    either ends. *)
Lemma startswith_append_false (a b rest : string) :
  startswith b a = false → startswith a b = false →
  startswith (b +:+ rest) a = false.
Proof.
  revert b. induction a as [|x a IH]; intros b Hab Hba; [discriminate|].
  destruct b as [|y b]; [discriminate|]. simpl in *.
  rewrite (Ascii.eqb_sym y x) in Hba.
  destruct (Ascii.eqb x y); [|reflexivity]. apply IH; assumption.
Qed.

(** A tag that opens with [<] does not occur inside a stretch of text
    without [<]. *)
Lemma count_from_no_less_than (sub' a rest : string) :
  no_less_than a = true →
  count_from (String less_than sub') 0 (a +:+ rest)
  = count_from (String less_than sub') 0 rest.
Proof.
  induction a as [|x a IH]; intros Hno; [reflexivity|].
  simpl in Hno. apply andb_true_iff in Hno as [Hx Ha].
  change (String x a +:+ rest) with (String x (a +:+ rest)).
  cbn [count_from startswith].
  rewrite Ascii.eqb_sym. apply negb_true_iff in Hx. rewrite Hx.
  apply IH, Ha.
Qed.

Lemma count_from_own_tag (sub' rest : string) :
  count_from (String less_than sub') 0 (String less_than sub' +:+ rest)
  = S (count_from (String less_than sub') 0 rest).
Proof.
  change (String less_than sub' +:+ rest)
    with (String less_than (sub' +:+ rest)) at 1.
  cbn [count_from].
  change (String less_than (sub' +:+ rest))
    with (String less_than sub' +:+ rest).
  rewrite startswith_append. f_equal.
  replace (String.length (String less_than sub') - 1)
    with (String.length sub') by (simpl; lia).
  apply count_from_skip.
Qed.

Lemma count_from_other_tag (sub' other' rest : string) :
  no_less_than other' = true →
  startswith (String less_than other') (String less_than sub') = false →
  startswith (String less_than sub') (String less_than other') = false →
  count_from (String less_than sub') 0 (String less_than other' +:+ rest)
  = count_from (String less_than sub') 0 rest.
Proof.
  intros Hno Hab Hba.
  change (String less_than other' +:+ rest)
    with (String less_than (other' +:+ rest)).
  cbn [count_from].
  change (String less_than (other' +:+ rest))
    with (String less_than other' +:+ rest).
  rewrite (startswith_append_false _ _ rest Hab Hba).
  apply count_from_no_less_than, Hno.
Qed.

Lemma separable_inv (startTag endTag : string) :
  separable startTag endTag = true →
  ∃ startTag' endTag',
    startTag = String less_than startTag'
    ∧ endTag = String less_than endTag'
    ∧ no_less_than startTag' = true ∧ no_less_than endTag' = true
    ∧ startswith endTag startTag = false
    ∧ startswith startTag endTag = false.
Proof.
  unfold separable. destruct startTag as [|a s']; [discriminate|].
  destruct endTag as [|b e']; [discriminate|].
  rewrite !andb_true_iff, !negb_true_iff.
  intros (((((Ha%Ascii.eqb_eq & Hb%Ascii.eqb_eq) & Hs) & He) & Hse) & Hes).
  subst a b. exists s', e'. repeat split; assumption.
Qed.

(** In a rendered sequence of separable tags each tag is counted once per
    occurrence in the sequence, wherever it stands. *)
Lemma count_render (startTag endTag : string) (tags : list bool) :
  separable startTag endTag = true →
  count startTag (render startTag endTag tags)
  = List.count_occ Bool.bool_dec tags true
  ∧ count endTag (render startTag endTag tags)
    = List.count_occ Bool.bool_dec tags false.
Proof.
  intros (s' & e' & -> & -> & Hs & He & Hse & Hes)%separable_inv.
  rewrite !count_nonempty by discriminate.
  induction tags as [|[] tags [IHs IHe]]; [split; reflexivity| |].
  - cbn [render foldr List.count_occ]. fold (render (String less_than s')
      (String less_than e') tags).
    rewrite count_from_own_tag, (count_from_other_tag e' s') by assumption.
    rewrite IHs, IHe. split; reflexivity.
  - cbn [render foldr List.count_occ]. fold (render (String less_than s')
      (String less_than e') tags).
    rewrite count_from_own_tag, (count_from_other_tag s' e') by assumption.
    rewrite IHs, IHe. split; reflexivity.
Qed.

(** C7: the balance is the number of occurrences of the start tag minus
    that of the end tag, whatever their order: it is 0 on the empty text
    (for non-empty tags), and on any sequence of (separable) start and
    end tags it is the number of start tags minus the number of end tags
    in the sequence; text with other tags only has balance 0. *)
Theorem tagBalance_is_count_difference :
  (∀ text startTag endTag,
     tagBalance text startTag endTag
     = (Z.of_nat (count startTag text) - Z.of_nat (count endTag text))%Z)
  ∧ (∀ startTag endTag,
       startTag ≠ "" → endTag ≠ "" → tagBalance "" startTag endTag = 0%Z)
  ∧ (∀ startTag endTag tags,
       separable startTag endTag = true →
       tagBalance (render startTag endTag tags) startTag endTag
       = (Z.of_nat (List.count_occ Bool.bool_dec tags true)
          - Z.of_nat (List.count_occ Bool.bool_dec tags false))%Z)
  ∧ tagBalance "something or other <tag> </closetag> but not important"
      "<em>" "</em>" = 0%Z.
Proof.
  split; [reflexivity|]. split; [|split; [|reflexivity]].
  - intros startTag endTag Hs He. unfold tagBalance.
    rewrite !count_nonempty by assumption. reflexivity.
  - intros startTag endTag tags Hsep. unfold tagBalance.
    destruct (count_render startTag endTag tags Hsep) as [-> ->].
    reflexivity.
Qed.

End highlighting_facts.

(** *** The highlighting tests and sample cases *)

Lemma sample_abstract_spans :
  highlighting.findSpans sample_abstract "<em>" "</em>" =
  map (λ '(a, b, k), highlighting.Build_Span a b k)
    [ (50, 62, highlighting.Math); (76, 109, highlighting.Math);
      (213, 217, highlighting.Tag); (217, 268, highlighting.Math);
      (268, 273, highlighting.Tag); (275, 305, highlighting.Math);
      (307, 345, highlighting.Math); (347, 377, highlighting.Math);
      (383, 427, highlighting.Math) ].
Proof. vm_compute. reflexivity. Qed.

(** The four cases of [TestResultsEndSafely], for a tolerance of one
    character. *)
Lemma end_safely_tests :
  highlighting.computeSafeEnd sample_abstract 45 "<em>" "</em>" 1 = 45%Z
  ∧ highlighting.computeSafeEnd sample_abstract 55 "<em>" "</em>" 1 = 50%Z
  ∧ highlighting.computeSafeEnd sample_abstract 215 "<em>" "</em>" 1 = 213%Z
  ∧ highlighting.computeSafeEnd sample_abstract 275 "<em>" "</em>" 1 = 275%Z.
Proof. repeat split; vm_compute; reflexivity. Qed.

(** The safe end for the fragment size of
    [TestResultsHighlightAbstract.test_preview]: 350 falls inside the
    math span from 347 to 377. *)
Lemma end_safely_at_350 :
  highlighting.Build_Span 347 377 highlighting.Math
    ∈ highlighting.findSpans sample_abstract "<em>" "</em>"
  ∧ highlighting.inside 350 (highlighting.Build_Span 347 377 highlighting.Math)
    = true
  ∧ highlighting.computeSafeEnd sample_abstract 350 "<em>" "</em>" 1 = 347%Z
  ∧ highlighting.computeSafeEnd sample_abstract 350 "<em>" "</em>" 27 = 377%Z.
Proof.
  split; [rewrite sample_abstract_spans; set_solver|].
  repeat split; vm_compute; reflexivity.
Qed.

(** The cases of [Collapse.collapse_hl_tags], for the tag pair of the
    other tests. *)
Lemma collapse_hl_tags_tests :
  let balance text := highlighting.tagBalance text "<em>" "</em>" in
  balance "" = 0%Z
  ∧ balance "something or other <tag> </closetag> but not important" = 0%Z
  ∧ balance "<em><em><em>" = 3%Z
  ∧ balance "</em></em></em>" = (-3)%Z
  ∧ balance "<em><em></em>" = 1%Z
  ∧ balance "<em></em></em>" = (-1)%Z
  ∧ balance "<em><em></em></em>" = 0%Z
  ∧ balance "<em></em><em></em>" = 0%Z.
Proof. repeat split. Qed.


Lemma tagBalance_is_count_difference_witness :
  highlighting.separable "<em>" "</em>" = true
  ∧ highlighting.tagBalance "<em><em></em>" "<em>" "</em>" = 1%Z
  ∧ highlighting.tagBalance "<em></em></em>" "<em>" "</em>" = (-1)%Z.
Proof.
  split; [reflexivity|]. split.
  - exact (proj1 (proj2 (proj2 tagBalance_is_count_difference))
             "<em>" "</em>" [true; true; false] eq_refl).
  - exact (proj1 (proj2 (proj2 tagBalance_is_count_difference))
             "<em>" "</em>" [true; false; false] eq_refl).
Defined.

(** * Further properties *)

(** ** More of the phrase translator *)
Section classic_more.
Context {Q : Type} `{QueryDsl Q}.
Variable SEARCH_FIELDS : gmap string (PyVal → Q).
Variable Search : Type.
Variable Search_query : Search → Q → Search.

Local Abbreviation translate := (_phrase_to_query SEARCH_FIELDS).
Local Abbreviation rec := (phrase_value_to_query SEARCH_FIELDS).
Local Abbreviation fold := (fold_tokens SEARCH_FIELDS rec).

(** Induction on Python values, with the items of a tuple covered. *)
Lemma PyVal_nested_ind (P : PyVal → Prop) :
  (∀ f, P (PField f)) → (∀ o, P (POperator o)) → (∀ s, P (PStr s)) →
  (∀ z, P (PInt z)) →
  (∀ items, Forall P items → P (PTuple items)) →
  ∀ v, P v.
Proof.
  intros Hf Ho Hs Hz Ht.
  refine (fix IH (v : PyVal) : P v :=
            match v with
            | PField f => Hf f
            | POperator o => Ho o
            | PStr s => Hs s
            | PInt z => Hz z
            | PTuple items =>
                Ht items
                  ((fix all (l : list PyVal) : Forall P l :=
                      match l with
                      | [] => List.Forall_nil P
                      | x :: l' => List.Forall_cons P x l' (IH x) (all l')
                      end) items)
            end).
Qed.

(** A phrase whose first element is an operator or a tuple goes through
    the loop. *)
Lemma phrase_to_query_head first (others : list PyVal) :
  acted_on first = true →
  translate (first :: others)
  = _phrase_to_query_general SEARCH_FIELDS (first :: others).
Proof.
  intros Hfirst. rewrite phrase_to_query_eq.
  destruct first; try discriminate; reflexivity.
Qed.

Lemma general_case_app (a b : list PyVal) st :
  fold a (MatchAll, AND) = Ok st →
  _phrase_to_query_general SEARCH_FIELDS (a ++ b)
  = (fold b st ≫= λ st', Ok st'.1).
Proof.
  intros Ha. unfold _phrase_to_query_general, general_case.
  rewrite fold_tokens_app, Ha. simpl. destruct (fold b st); reflexivity.
Qed.

(** The exception of the first operand that fails is the exception of
    the loop. *)
Lemma general_case_raises (pre rest items : list PyVal) st e :
  fold pre (MatchAll, AND) = Ok st →
  operand SEARCH_FIELDS rec (PTuple items) items = Raise e →
  _phrase_to_query_general SEARCH_FIELDS (pre ++ PTuple items :: rest)
  = Raise e.
Proof.
  intros Hpre He. rewrite (general_case_app _ _ _ Hpre).
  rewrite (fold_tokens_raise _ _ _ _ e rest st eq_refl He). reflexivity.
Qed.

Lemma phrase_to_query_not_base (phrase : list PyVal) :
  phrase ≠ [] → is_base_case phrase = false →
  translate phrase = _phrase_to_query_general SEARCH_FIELDS phrase.
Proof.
  intros Hne Hbase. rewrite phrase_to_query_eq, Hbase.
  destruct phrase; [congruence | reflexivity].
Qed.

(** What [_term_to_query] raises on a pair is a [KeyError]. *)
Lemma term_to_query_pair_error a b e :
  _term_to_query SEARCH_FIELDS [a; b] = Raise e → ∃ key, e = KeyError key.
Proof.
  unfold _term_to_query, FIELD_TERM_MAPPING, search_field.
  repeat (match goal with
          | |- context [SEARCH_FIELDS !! ?k] =>
              destruct (SEARCH_FIELDS !! k); simpl;
              [| intros [= <-]; eexists; reflexivity]
          end).
  unfold mapping_get. destruct a; simpl;
    try (intros [= <-]; eexists; reflexivity).
  match goal with
  | |- context [?m !! f] => destruct (m !! f); simpl
  end; [discriminate | intros [= <-]; eexists; reflexivity].
Qed.

(** X1: a key missing from [SEARCH_FIELDS] fails the translation of every
    term, whatever its field: the dict literal of [_term_to_query]
    subscripts all eight keys before the field is looked up, and the
    first missing one raises its [KeyError]. *)
Theorem missing_builder_fails_every_term (before after : list string)
    key field val :
  mapping_keys = before ++ key :: after →
  Forall (λ k, is_Some (SEARCH_FIELDS !! k)) before →
  SEARCH_FIELDS !! key = None →
  _term_to_query SEARCH_FIELDS [field; val] = Raise (KeyError (PStr key)).
Proof.
  intros Hkeys Hbefore Hkey. unfold mapping_keys in Hkeys.
  unfold _term_to_query, FIELD_TERM_MAPPING, search_field.
  do 9 (destruct before as [|? before];
        [ simplify_eq/=; rewrite Forall_forall in Hbefore;
          repeat match goal with
                 | |- context [SEARCH_FIELDS !! ?k] =>
                     destruct (Hbefore k ltac:(set_solver)) as [? ->]; simpl
                 end;
          rewrite Hkey; reflexivity
        | ]).
  simplify_eq/=.
Qed.

(** X2: with all eight keys present, a term on any [Field] is translated
    by the builder stored under that field's key, applied to the term's
    value. *)
Theorem every_field_term_translates f val :
  provisioned SEARCH_FIELDS →
  ∃ build,
    SEARCH_FIELDS !! index_field f = Some build
    ∧ _term_to_query SEARCH_FIELDS [PField f; val] = Ok (build val)
    ∧ translate [PField f; val] = Ok (build val).
Proof.
  intros Hall. destruct (Hall f) as [build Hbuild]. exists build.
  pose proof (term_to_query_registered SEARCH_FIELDS f build val
                (provisioned_registered SEARCH_FIELDS f build Hall Hbuild))
    as Hterm.
  split; [exact Hbuild|]. split; [exact Hterm|].
  rewrite phrase_to_query_eq. exact Hterm.
Qed.

Lemma term_to_query_non_field first second :
  provisioned SEARCH_FIELDS →
  isinstance_Field first = false →
  _term_to_query SEARCH_FIELDS [first; second] = Raise (KeyError first).
Proof.
  intros Hall Hfirst.
  destruct (Hall Author) as [build Hbuild].
  destruct (provisioned_registered SEARCH_FIELDS Author build Hall Hbuild)
    as (m & Hm & _).
  unfold _term_to_query. rewrite Hm. simpl.
  destruct first; try discriminate; reflexivity.
Qed.

(** X3: a pair whose first element is not a [Field] fails leaf
    translation with a [KeyError] on that element; as a token of a phrase
    (when it is not headed by an operator either, such as a pair of
    terms) it fails the whole translation the same way. *)
Theorem non_field_pair_raises_KeyError first second :
  provisioned SEARCH_FIELDS →
  isinstance_Field first = false →
  _term_to_query SEARCH_FIELDS [first; second] = Raise (KeyError first)
  ∧ (isinstance_Operator first = false →
     ∀ pre rest st,
       is_base_case (pre ++ PTuple [first; second] :: rest) = false →
       fold pre (MatchAll, AND) = Ok st →
       translate (pre ++ PTuple [first; second] :: rest)
       = Raise (KeyError first)).
Proof.
  intros Hall Hfirst.
  pose proof (term_to_query_non_field first second Hall Hfirst) as Hterm.
  split; [exact Hterm|].
  intros Hop pre rest st Hbase Hpre.
  rewrite phrase_to_query_not_base by (try assumption; destruct pre; discriminate).
  apply (general_case_raises pre rest [first; second] st); [exact Hpre|].
  unfold operand. rewrite Hop. exact Hterm.
Qed.

(** X4: the loop stops at the first operand that fails: the exception of
    that operand is the outcome of the translation, whatever follows
    it. *)
Theorem first_failing_operand_decides (pre rest items : list PyVal) st e :
  is_base_case (pre ++ PTuple items :: rest) = false →
  fold pre (MatchAll, AND) = Ok st →
  operand SEARCH_FIELDS rec (PTuple items) items = Raise e →
  translate (pre ++ PTuple items :: rest) = Raise e
  ∧ ∀ rest',
      is_base_case (pre ++ PTuple items :: rest') = false →
      translate (pre ++ PTuple items :: rest') = Raise e.
Proof.
  intros Hbase Hpre He.
  assert (∀ r, is_base_case (pre ++ PTuple items :: r) = false →
               translate (pre ++ PTuple items :: r) = Raise e) as Hany.
  { intros r Hr.
    rewrite phrase_to_query_not_base
      by (try assumption; destruct pre; discriminate).
    apply (general_case_raises pre r items st e Hpre He). }
  split; [apply Hany, Hbase | exact Hany].
Qed.

(** *** Which exceptions, and when none *)

Lemma fold_errors (tokens : list PyVal) st e :
  Forall (λ v, isinstance_tuple v = true →
               ∀ e, rec v = Raise e → phrase_error e = true) tokens →
  fold tokens st = Raise e → phrase_error e = true.
Proof.
  intros Hall. revert st.
  induction Hall as [|token tokens Htoken _ IH]; intros st; [discriminate|].
  simpl. destruct token as [| | | |items]; try apply IH.
  destruct (operand SEARCH_FIELDS rec (PTuple items) items) as [x|e'] eqn:Hop;
    [apply IH|].
  intros [= <-]. unfold operand in Hop.
  destruct items as [|first others]; [injection Hop as <-; reflexivity|].
  destruct (isinstance_Operator first || (length (first :: others) =? 3)%nat).
  { apply (Htoken eq_refl), Hop. }
  destruct (Nat.eqb_spec (length (first :: others)) 2) as [Hlen|_].
  - destruct others as [|second [|]]; try discriminate.
    apply term_to_query_pair_error in Hop as [key ->]. reflexivity.
  - injection Hop as <-. reflexivity.
Qed.

(** What the translation of a tuple raises is an [IndexError], a
    [KeyError] or the [ValueError] of an invalid phrase component. *)
Lemma phrase_value_errors v :
  isinstance_tuple v = true → ∀ e, rec v = Raise e → phrase_error e = true.
Proof.
  induction v as [| | | |items IH] using PyVal_nested_ind;
    intros Htuple e; try discriminate. simpl.
  destruct items as [|first others]; [intros [= <-]; reflexivity|].
  destruct (is_base_case (first :: others)) eqn:Hbase.
  - unfold is_base_case in Hbase.
    apply andb_true_iff in Hbase as [_ Hlen%Nat.eqb_eq].
    destruct others as [|second [|]]; try discriminate.
    intros [key ->]%term_to_query_pair_error. reflexivity.
  - unfold general_case.
    destruct (fold_tokens SEARCH_FIELDS rec (first :: others)
                (MatchAll, AND)) as [st|e'] eqn:Hfold; [discriminate|].
    intros [= <-]. exact (fold_errors _ _ _ IH Hfold).
Qed.

(** X5: [classic_search] fails exactly when the translation of the phrase
    fails, with the same exception and without querying; that exception
    is an [IndexError] (an empty tuple), a [KeyError] (leaf lookup) or
    the [ValueError] of an invalid phrase component, never anything
    else. *)
Theorem classic_search_errors search (phrase : list PyVal) e :
  (classic_search SEARCH_FIELDS Search Search_query search phrase = Raise e
   ↔ translate phrase = Raise e)
  ∧ (translate phrase = Raise e → phrase_error e = true).
Proof.
  split.
  - unfold classic_search. destruct (translate phrase) as [q|e']; simpl.
    + split; discriminate.
    + split; intros [= <-]; reflexivity.
  - exact (phrase_value_errors (PTuple phrase) eq_refl e).
Qed.

Lemma fold_accepted (tokens : list PyVal) st :
  provisioned SEARCH_FIELDS →
  Forall (λ v, accepted v = true → ∃ q, rec v = Ok q) tokens →
  forallb
    (λ token,
       match token with
       | PTuple [] => false
       | PTuple ((first :: _) as sub) =>
           if isinstance_Operator first || (length sub =? 3)%nat
           then accepted token
           else (length sub =? 2)%nat && isinstance_Field first
       | _ => true
       end) tokens = true →
  ∃ st', fold tokens st = Ok st'.
Proof.
  intros Hprov Hall. revert st.
  induction Hall as [|token tokens Htoken _ IH]; intros st Hshape;
    [eexists; reflexivity|].
  simpl in Hshape. apply andb_true_iff in Hshape as [Htok Hrest].
  simpl. destruct token as [| | | |items]; try (apply IH, Hrest).
  destruct items as [|first others]; [discriminate|].
  unfold operand.
  destruct (isinstance_Operator first || (length (first :: others) =? 3)%nat).
  - destruct (Htoken Htok) as [q ->]. apply IH, Hrest.
  - apply andb_true_iff in Htok as [Hlen Hfield].
    rewrite Hlen. apply Nat.eqb_eq in Hlen.
    destruct others as [|second [|]]; try discriminate.
    destruct first as [f| | | |]; try discriminate.
    destruct (Hprov f) as [build Hbuild].
    rewrite (term_to_query_registered SEARCH_FIELDS f build second
               (provisioned_registered SEARCH_FIELDS f build Hprov Hbuild)).
    apply IH, Hrest.
Qed.

Lemma accepted_value_translates v :
  provisioned SEARCH_FIELDS → accepted v = true → ∃ q, rec v = Ok q.
Proof.
  intros Hprov. induction v as [| | | |items IH] using PyVal_nested_ind;
    try discriminate.
  destruct items as [|first others]; [discriminate|].
  cbn [accepted phrase_value_to_query].
  destruct (is_base_case (first :: others)) eqn:Hbase.
  - intros _. unfold is_base_case in Hbase.
    apply andb_true_iff in Hbase as [Hfield Hlen%Nat.eqb_eq].
    destruct others as [|second [|]]; try discriminate.
    destruct first as [f| | | |]; try discriminate.
    destruct (Hprov f) as [build Hbuild]. exists (build second).
    apply term_to_query_registered, provisioned_registered; assumption.
  - rewrite orb_false_l. intros Hshape.
    destruct (fold_accepted (first :: others) (MatchAll, AND) Hprov IH Hshape)
      as [st Hst].
    exists st.1. unfold general_case.
    change (fold_tokens SEARCH_FIELDS rec (first :: others) (MatchAll, AND))
      with (fold (first :: others) (MatchAll, AND)).
    rewrite Hst. reflexivity.
Qed.

(** X6: with all eight keys present, a phrase of an accepted shape (a
    bare term, or operators, terms and nested phrases that start with an
    operator or have three elements, nested to any depth) always
    translates, and [classic_search] returns the search with that query
    applied. *)
Theorem accepted_phrases_translate search (phrase : list PyVal) :
  provisioned SEARCH_FIELDS →
  accepted (PTuple phrase) = true →
  ∃ q, translate phrase = Ok q
       ∧ classic_search SEARCH_FIELDS Search Search_query search phrase
         = Ok (Search_query search q).
Proof.
  intros Hprov Hshape.
  destruct (accepted_value_translates (PTuple phrase) Hprov Hshape) as [q Hq].
  exists q. split; [exact Hq|].
  unfold classic_search.
  change (_phrase_to_query SEARCH_FIELDS phrase) with (rec (PTuple phrase)).
  rewrite Hq. reflexivity.
Qed.

(** *** Tokens that change nothing *)

Lemma fold_filter (tokens : list PyVal) st :
  fold (List.filter acted_on tokens) st = fold tokens st.
Proof.
  revert st. induction tokens as [|token tokens IH]; intros st; [reflexivity|].
  destruct token as [| | | |items]; simpl; try apply IH.
  destruct (operand _ _ _ _); [apply IH | reflexivity].
Qed.

(** X7: elements of a phrase that are neither operators nor tuples
    (stray strings, numbers, bare fields) are passed over: a phrase that
    starts with an operator or a tuple translates as the phrase without
    them does. *)
Theorem stray_tokens_are_ignored first (others : list PyVal) :
  acted_on first = true →
  translate (List.filter acted_on (first :: others))
  = translate (first :: others).
Proof.
  intros Hfirst. cbn [List.filter]. rewrite Hfirst.
  rewrite !phrase_to_query_head by exact Hfirst.
  unfold _phrase_to_query_general, general_case.
  change (first :: List.filter acted_on others)
    with ([first] ++ List.filter acted_on others).
  change (first :: others) with ([first] ++ others).
  rewrite !fold_tokens_app.
  destruct (fold_tokens SEARCH_FIELDS rec [first] (MatchAll, AND)) as [st|];
    [|reflexivity].
  simpl. change (fold_tokens SEARCH_FIELDS rec) with fold.
  rewrite fold_filter. reflexivity.
Qed.

(** X8: an operator that no operand follows changes nothing: of
    consecutive operators only the last one counts, and an operator at
    the end of a phrase (that starts with an operator or a tuple) is
    ignored. *)
Theorem unused_operators_are_ignored first (others : list PyVal) o :
  acted_on first = true →
  translate ((first :: others) ++ [POperator o]) = translate (first :: others)
  ∧ ∀ pre rest o1 o2,
      translate ((first :: pre) ++ POperator o1 :: POperator o2 :: rest)
      = translate ((first :: pre) ++ POperator o2 :: rest).
Proof.
  intros Hfirst. split.
  - change ((first :: others) ++ [POperator o])
      with (first :: (others ++ [POperator o])).
    rewrite !phrase_to_query_head by exact Hfirst.
    unfold _phrase_to_query_general, general_case.
    change (first :: (others ++ [POperator o]))
      with ((first :: others) ++ [POperator o]).
    rewrite fold_tokens_app.
    destruct (fold_tokens SEARCH_FIELDS rec (first :: others) (MatchAll, AND))
      as [[q op]|]; reflexivity.
  - intros pre rest o1 o2.
    change ((first :: pre) ++ POperator o1 :: POperator o2 :: rest)
      with (first :: (pre ++ POperator o1 :: POperator o2 :: rest)).
    change ((first :: pre) ++ POperator o2 :: rest)
      with (first :: (pre ++ POperator o2 :: rest)).
    rewrite !phrase_to_query_head by exact Hfirst.
    unfold _phrase_to_query_general, general_case.
    change (first :: (pre ++ POperator o1 :: POperator o2 :: rest))
      with ((first :: pre) ++ POperator o1 :: POperator o2 :: rest).
    change (first :: (pre ++ POperator o2 :: rest))
      with ((first :: pre) ++ POperator o2 :: rest).
    rewrite !fold_tokens_app.
    destruct (fold_tokens SEARCH_FIELDS rec (first :: pre) (MatchAll, AND))
      as [[q op]|]; reflexivity.
Qed.

(** *** Chains and nesting *)

Lemma fold_chain op (operands : list PyVal) (xs : list Q) q op0 :
  Forall2 (λ t x, ∃ items, t = PTuple items ∧
                   operand SEARCH_FIELDS rec t items = Ok x) operands xs →
  ∃ op', fold (flat_map (λ t, [POperator op; t]) operands) (q, op0)
         = Ok (foldl (combine op) q xs, op').
Proof.
  intros Hall. revert q op0.
  induction Hall as [|t x ts xs' (items & -> & Hx) _ IH]; intros q op0.
  { exists op0. reflexivity. }
  cbn [flat_map app]. rewrite fold_tokens_operator.
  rewrite (fold_tokens_operand SEARCH_FIELDS rec _ items x _ q op eq_refl Hx).
  apply IH.
Qed.

Lemma fold_juxtaposed (operands : list PyVal) (xs : list Q) q op :
  Forall2 (λ t x, ∃ items, t = PTuple items ∧
                   operand SEARCH_FIELDS rec t items = Ok x) operands xs →
  fold operands (q, op) = Ok (foldl (combine op) q xs, op).
Proof.
  intros Hall. revert q.
  induction Hall as [|t x ts xs' (items & -> & Hx) _ IH]; intros q;
    [reflexivity|].
  rewrite (fold_tokens_operand SEARCH_FIELDS rec _ items x _ q op eq_refl Hx).
  apply IH.
Qed.

(** X9: a chain [(t0, op, t1, op, t2, ...)] of operands that translate is
    folded from the left with its operator: [((x0 op x1) op x2) ...],
    where [ANDNOT] combines as [& ~]; operands written side by side
    without an operator are folded with [AND]. *)
Theorem chains_fold_from_the_left op first (others : list PyVal) x0
    (xs : list Q) :
  (∀ x : Q, q_and MatchAll x = x) →
  Forall2 (λ t x, ∃ items, t = PTuple items ∧
                   operand SEARCH_FIELDS rec t items = Ok x)
          (first :: others) (x0 :: xs) →
  translate (chain op first others) = Ok (foldl (combine op) x0 xs)
  ∧ translate (first :: others) = Ok (foldl q_and x0 xs)
  ∧ translate (first :: others) = translate (chain AND first others).
Proof.
  intros Hid Hall.
  apply Forall2_cons in Hall as [(items & -> & Hx0) Hothers].
  assert (translate (chain op (PTuple items) others)
          = Ok (foldl (combine op) x0 xs)) as Hchain.
  { intros. unfold chain. rewrite phrase_to_query_head by reflexivity.
    unfold _phrase_to_query_general, general_case.
    rewrite (fold_tokens_operand SEARCH_FIELDS rec _ items x0 _ _ _
               eq_refl Hx0).
    cbn [combine]. rewrite Hid.
    destruct (fold_chain op others xs x0 AND Hothers) as [op' Hfold].
    change (fold_tokens SEARCH_FIELDS rec) with fold. rewrite Hfold.
    reflexivity. }
  assert (translate (PTuple items :: others) = Ok (foldl q_and x0 xs))
    as Hside.
  { rewrite phrase_to_query_head by reflexivity.
    unfold _phrase_to_query_general, general_case.
    rewrite (fold_tokens_operand SEARCH_FIELDS rec _ items x0 _ _ _
               eq_refl Hx0).
    cbn [combine]. rewrite Hid.
    change (fold_tokens SEARCH_FIELDS rec) with fold.
    rewrite (fold_juxtaposed others xs x0 AND Hothers). reflexivity. }
  split; [exact Hchain|]. split; [exact Hside|].
  rewrite Hside. symmetry.
  assert (translate (chain AND (PTuple items) others)
          = Ok (foldl (combine AND) x0 xs)) as HchainAND.
  { unfold chain. rewrite phrase_to_query_head by reflexivity.
    unfold _phrase_to_query_general, general_case.
    rewrite (fold_tokens_operand SEARCH_FIELDS rec _ items x0 _ _ _
               eq_refl Hx0).
    cbn [combine]. rewrite Hid.
    destruct (fold_chain AND others xs x0 AND Hothers) as [op' Hfold].
    change (fold_tokens SEARCH_FIELDS rec) with fold. rewrite Hfold.
    reflexivity. }
  exact HchainAND.
Qed.

(** X10: a phrase that starts with an operator or has three elements
    translates the same whether it stands alone or is the only token of
    an enclosing phrase; it fails there as it fails alone. *)
Theorem nesting_is_transparent (items : list PyVal) first :
  (∀ x : Q, q_and MatchAll x = x) →
  head items = Some first →
  isinstance_Operator first = true ∨ length items = 3 →
  translate [PTuple items] = translate items.
Proof.
  intros Hid Hfirst Hshape.
  rewrite (phrase_to_query_head (PTuple items) []) by reflexivity.
  unfold _phrase_to_query_general, general_case. cbn [fold_tokens].
  unfold operand. destruct items as [|first' tail]; [discriminate|].
  injection Hfirst as ->.
  assert (isinstance_Operator first
          || (length (first :: tail) =? 3)%nat = true) as ->.
  { destruct Hshape as [-> | ->]; [reflexivity | apply orb_true_r]. }
  change (phrase_value_to_query SEARCH_FIELDS (PTuple (first :: tail)))
    with (translate (first :: tail)).
  destruct (translate (first :: tail)) as [x|e]; [|reflexivity].
  cbn. rewrite Hid. reflexivity.
Qed.

End classic_more.

(** *** Sample translations *)

Lemma es_provisioned : provisioned EsDsl.fields.
Proof. intros []; eexists; reflexivity. Qed.

Lemma es_term_operand (f : Field) (v : string) :
  ∃ items,
    PTuple [PField f; PStr v] = PTuple items
    ∧ operand EsDsl.fields (phrase_value_to_query EsDsl.fields)
        (PTuple [PField f; PStr v]) items
      = Ok (EsDsl.QLeaf (index_field f) (PStr v)).
Proof.
  eexists. split; [reflexivity|]. destruct f; reflexivity.
Qed.

Lemma missing_builder_fails_every_term_witness :
  mapping_keys
  = ["author"; "comments"]
    ++ "paper_id"
       :: ["journal_ref"; "report_num"; "cross_list_category"; "title"; "all"]
  ∧ Forall (λ k, is_Some (fields_without_paper_id !! k)) ["author"; "comments"]
  ∧ fields_without_paper_id !! "paper_id" = None
  ∧ _term_to_query fields_without_paper_id [PField Title; PStr "dark matter"]
    = Raise (KeyError (PStr "paper_id")).
Proof.
  assert (Forall (λ k, is_Some (fields_without_paper_id !! k))
            ["author"; "comments"]) as Hbefore.
  { repeat constructor; eexists; reflexivity. }
  split; [reflexivity|]. split; [exact Hbefore|]. split; [reflexivity|].
  exact (missing_builder_fails_every_term fields_without_paper_id
           ["author"; "comments"]
           ["journal_ref"; "report_num"; "cross_list_category"; "title"; "all"]
           "paper_id" (PField Title) (PStr "dark matter")
           eq_refl Hbefore eq_refl).
Defined.

Lemma every_field_term_translates_witness :
  provisioned EsDsl.fields
  ∧ ∃ build,
      EsDsl.fields !! index_field Identifier = Some build
      ∧ _term_to_query EsDsl.fields [PField Identifier; PStr "1234.5678"]
        = Ok (build (PStr "1234.5678"))
      ∧ _phrase_to_query EsDsl.fields [PField Identifier; PStr "1234.5678"]
        = Ok (build (PStr "1234.5678")).
Proof.
  split; [exact es_provisioned|].
  exact (every_field_term_translates EsDsl.fields Identifier
           (PStr "1234.5678") es_provisioned).
Defined.

Lemma non_field_pair_raises_KeyError_witness :
  provisioned EsDsl.fields
  ∧ isinstance_Field author_term = false
  ∧ _phrase_to_query EsDsl.fields [author_term; title_term]
    = Ok (EsDsl.QAnd (EsDsl.QLeaf "author" (PStr "copernicus"))
                     (EsDsl.QLeaf "title" (PStr "dark matter")))
  ∧ _phrase_to_query EsDsl.fields
      ([all_term; POperator OR]
       ++ PTuple [author_term; title_term] :: [])
    = Raise (KeyError author_term).
Proof.
  split; [exact es_provisioned|]. split; [reflexivity|].
  split; [reflexivity|].
  exact (proj2 (non_field_pair_raises_KeyError EsDsl.fields
                  author_term title_term es_provisioned eq_refl)
           eq_refl [all_term; POperator OR] []
           (EsDsl.QLeaf "all" (PStr "electron"), OR) eq_refl eq_refl).
Defined.

Lemma first_failing_operand_decides_witness :
  _phrase_to_query EsDsl.fields
    ([author_term] ++ PTuple [] :: [PTuple [PStr "x"]])
  = Raise IndexError
  ∧ _phrase_to_query EsDsl.fields
      ([author_term] ++ PTuple [] :: [title_term; POperator OR; all_term])
    = Raise IndexError.
Proof.
  destruct (first_failing_operand_decides EsDsl.fields
              [author_term] [PTuple [PStr "x"]] []
              (EsDsl.QLeaf "author" (PStr "copernicus"), AND) IndexError
              ltac:(reflexivity) ltac:(reflexivity) ltac:(reflexivity))
    as [Hhere Hany].
  split; [exact Hhere|].
  exact (Hany [title_term; POperator OR; all_term] ltac:(reflexivity)).
Defined.

Lemma classic_search_errors_witness :
  _phrase_to_query EsDsl.fields
    [author_term; POperator AND;
     PTuple [title_term; POperator OR; all_term; POperator ANDNOT]]
  = Raise (ValueError "invalid phrase component: "
             [PTuple [title_term; POperator OR; all_term; POperator ANDNOT]])
  ∧ classic_search EsDsl.fields (list EsDsl.Query) apply_query []
      [author_term; POperator AND;
       PTuple [title_term; POperator OR; all_term; POperator ANDNOT]]
    = Raise (ValueError "invalid phrase component: "
               [PTuple [title_term; POperator OR; all_term; POperator ANDNOT]])
  ∧ phrase_error
      (ValueError "invalid phrase component: "
         [PTuple [title_term; POperator OR; all_term; POperator ANDNOT]])
    = true.
Proof.
  assert (_phrase_to_query EsDsl.fields
            [author_term; POperator AND;
             PTuple [title_term; POperator OR; all_term; POperator ANDNOT]]
          = Raise (ValueError "invalid phrase component: "
                     [PTuple [title_term; POperator OR; all_term;
                              POperator ANDNOT]])) as Hraise by reflexivity.
  split; [exact Hraise|].
  destruct (classic_search_errors EsDsl.fields (list EsDsl.Query)
              apply_query []
              [author_term; POperator AND;
               PTuple [title_term; POperator OR; all_term; POperator ANDNOT]]
              (ValueError "invalid phrase component: "
                 [PTuple [title_term; POperator OR; all_term;
                          POperator ANDNOT]])) as [Hiff Hclass].
  split; [apply Hiff, Hraise | apply Hclass, Hraise].
Defined.

Lemma accepted_phrases_translate_witness :
  provisioned EsDsl.fields
  ∧ accepted
      (PTuple [author_term; POperator OR;
               PTuple [title_term; POperator AND; all_term];
               POperator ANDNOT;
               PTuple [POperator OR; PTuple [PField Comment; PStr "erratum"]]])
    = true
  ∧ ∃ q,
      _phrase_to_query EsDsl.fields
        [author_term; POperator OR;
         PTuple [title_term; POperator AND; all_term];
         POperator ANDNOT;
         PTuple [POperator OR; PTuple [PField Comment; PStr "erratum"]]]
      = Ok q
      ∧ classic_search EsDsl.fields (list EsDsl.Query) apply_query []
          [author_term; POperator OR;
           PTuple [title_term; POperator AND; all_term];
           POperator ANDNOT;
           PTuple [POperator OR; PTuple [PField Comment; PStr "erratum"]]]
        = Ok (apply_query [] q).
Proof.
  split; [exact es_provisioned|]. split; [reflexivity|].
  apply (accepted_phrases_translate EsDsl.fields (list EsDsl.Query)
           apply_query []); [exact es_provisioned | reflexivity].
Defined.

Lemma stray_tokens_are_ignored_witness :
  acted_on author_term = true
  ∧ _phrase_to_query EsDsl.fields
      [author_term; POperator OR; title_term]
    = _phrase_to_query EsDsl.fields
        [author_term; PStr "or"; POperator OR; PInt 3; title_term;
         PField All].
Proof.
  split; [reflexivity|].
  exact (stray_tokens_are_ignored EsDsl.fields author_term
           [PStr "or"; POperator OR; PInt 3; title_term; PField All]
           eq_refl).
Defined.

Lemma unused_operators_are_ignored_witness :
  acted_on author_term = true
  ∧ _phrase_to_query EsDsl.fields
      ([author_term; POperator OR; title_term] ++ [POperator ANDNOT])
    = _phrase_to_query EsDsl.fields [author_term; POperator OR; title_term]
  ∧ _phrase_to_query EsDsl.fields
      ([author_term] ++ POperator ANDNOT :: POperator OR :: [title_term])
    = _phrase_to_query EsDsl.fields
        ([author_term] ++ POperator OR :: [title_term]).
Proof.
  split; [reflexivity|].
  destruct (unused_operators_are_ignored EsDsl.fields author_term
              [POperator OR; title_term] ANDNOT eq_refl) as [Hend Htwice].
  split; [exact Hend|].
  exact (Htwice [] [title_term] ANDNOT OR).
Defined.

Lemma chains_fold_from_the_left_witness :
  (∀ x : EsDsl.Query, q_and MatchAll x = x)
  ∧ _phrase_to_query EsDsl.fields
      (chain ANDNOT author_term [title_term; all_term])
    = Ok (EsDsl.QAnd
            (EsDsl.QAnd (EsDsl.QLeaf "author" (PStr "copernicus"))
                        (EsDsl.QNot (EsDsl.QLeaf "title" (PStr "dark matter"))))
            (EsDsl.QNot (EsDsl.QLeaf "all" (PStr "electron"))))
  ∧ _phrase_to_query EsDsl.fields [author_term; title_term; all_term]
    = _phrase_to_query EsDsl.fields
        (chain AND author_term [title_term; all_term]).
Proof.
  assert (Forall2 (λ t x, ∃ items, t = PTuple items ∧
                     operand EsDsl.fields (phrase_value_to_query EsDsl.fields)
                       t items = Ok x)
            [author_term; title_term; all_term]
            [EsDsl.QLeaf "author" (PStr "copernicus");
             EsDsl.QLeaf "title" (PStr "dark matter");
             EsDsl.QLeaf "all" (PStr "electron")]) as Hall.
  { repeat constructor;
      [ apply (es_term_operand Author) | apply (es_term_operand Title)
      | apply (es_term_operand All) ]. }
  split; [exact es_match_all_and|]. split.
  - exact (proj1 (chains_fold_from_the_left EsDsl.fields ANDNOT author_term
                    [title_term; all_term] _ _ es_match_all_and Hall)).
  - exact (proj2 (proj2 (chains_fold_from_the_left EsDsl.fields ANDNOT
                           author_term [title_term; all_term] _ _
                           es_match_all_and Hall))).
Defined.

Lemma nesting_is_transparent_witness :
  (∀ x : EsDsl.Query, q_and MatchAll x = x)
  ∧ head [author_term; POperator OR; title_term] = Some author_term
  ∧ _phrase_to_query EsDsl.fields
      [PTuple [author_term; POperator OR; title_term]]
    = _phrase_to_query EsDsl.fields [author_term; POperator OR; title_term].
Proof.
  split; [exact es_match_all_and|]. split; [reflexivity|].
  exact (nesting_is_transparent EsDsl.fields
           [author_term; POperator OR; title_term] author_term
           es_match_all_and eq_refl (or_intror eq_refl)).
Defined.

(** ** More of the fulltext client *)
Section fulltext_more.
Import fulltext.
Variable urljoin : string → string → string.
Variable requests_get : string → GetOutcome.
Variable Fulltext : Type.
Variable Fulltext_new : list (string * Json) → option Fulltext.

Local Abbreviation method :=
  (retrieve urljoin requests_get Fulltext Fulltext_new).
Local Abbreviation call :=
  (module_retrieve urljoin requests_get Fulltext Fulltext_new).

(** What the constructor stores, and that it fails on [""] only. *)
Lemma init_cases ep :
  match last_char ep with
  | None => ep = "" ∧ __init__ ep = Raise IndexError
  | Some c =>
      ∃ session,
        __init__ ep = Ok session
        ∧ last_char (endpoint session) = Some slash
        ∧ endpoint session = (if bool_decide (c = slash) then ep else ep +:+ "/")
  end.
Proof.
  destruct (last_char ep) as [c|] eqn:Hc.
  - unfold __init__. rewrite Hc. eexists. split; [reflexivity|]. simpl.
    case_bool_decide as Hslash; simpl.
    + subst c. split; [exact Hc | reflexivity].
    + split; [apply last_char_append | reflexivity].
  - split.
    + destruct ep as [|a ep]; [reflexivity|].
      destruct (last_char_nonempty (String a ep)) as [c Hsome];
        [discriminate | congruence].
    + unfold __init__. rewrite Hc. reflexivity.
Qed.

(** X11: the constructor normalises: building a session from the
    endpoint a session stores gives the same session again, so a trailing
    slash is added once and never doubled. *)
Theorem init_is_idempotent ep session :
  __init__ ep = Ok session →
  __init__ (endpoint session) = Ok session.
Proof.
  intros Hinit. pose proof (init_cases ep) as Hep.
  destruct (last_char ep) as [c|];
    [|destruct Hep as [_ Hraise]; congruence].
  destruct Hep as (session' & Hinit' & Hlast & Hendpoint).
  assert (session' = session) as -> by congruence.
  unfold __init__ in Hinit |- *. rewrite Hlast.
  rewrite bool_decide_eq_true_2 by reflexivity. simpl.
  destruct (last_char ep); [|discriminate].
  injection Hinit as <-. reflexivity.
Qed.

(** X12: [init_app] never replaces an endpoint that is configured, sets
    the default one when none is, leaves every other key alone, and
    changes nothing when run again. *)
Theorem init_app_sets_a_default_only (config : gmap string string) :
  init_app config !! FULLTEXT_ENDPOINT
  = Some (default default_endpoint (config !! FULLTEXT_ENDPOINT))
  ∧ (∀ key, key ≠ FULLTEXT_ENDPOINT → init_app config !! key = config !! key)
  ∧ init_app (init_app config) = init_app config.
Proof.
  unfold init_app.
  destruct (config !! FULLTEXT_ENDPOINT) as [ep|] eqn:Hep; simpl.
  - rewrite ?Hep. split; [reflexivity|]. split; reflexivity.
  - rewrite lookup_insert_eq. split; [reflexivity|]. split; [|reflexivity].
    intros key Hkey. apply lookup_insert_ne. congruence.
Qed.

(** X13: [init_app] is invisible to [get_session]: the session built
    from a configuration is the same before and after [init_app]. *)
Theorem get_session_after_init_app (config : gmap string string) :
  get_session (init_app config) = get_session config.
Proof.
  unfold get_session, init_app.
  destruct (config !! FULLTEXT_ENDPOINT) as [ep|] eqn:Hep; simpl.
  - rewrite Hep. reflexivity.
  - rewrite lookup_insert_eq. reflexivity.
Qed.

(** X14: [get_session] fails exactly when the endpoint is configured as
    the empty string, with [IndexError]; otherwise the session it returns
    stores an endpoint that ends with a slash, which is the default
    endpoint, as it is, when none is configured. *)
Theorem get_session_outcomes (config : gmap string string) :
  (config !! FULLTEXT_ENDPOINT = Some "" →
     get_session config = Raise IndexError)
  ∧ (config !! FULLTEXT_ENDPOINT ≠ Some "" →
     ∃ session,
       get_session config = Ok session
       ∧ last_char (endpoint session) = Some slash)
  ∧ (config !! FULLTEXT_ENDPOINT = None →
     ∃ session,
       get_session config = Ok session
       ∧ endpoint session = default_endpoint).
Proof.
  unfold get_session. split; [|split].
  - intros ->. reflexivity.
  - intros Hne.
    pose proof (init_cases
                  (default default_endpoint (config !! FULLTEXT_ENDPOINT)))
      as Hep.
    destruct (last_char _) as [c|].
    + destruct Hep as (session & Hinit & Hlast & _).
      exists session. split; assumption.
    + destruct Hep as [Hempty _].
      destruct (config !! FULLTEXT_ENDPOINT) as [ep|]; simpl in Hempty;
        [subst ep; congruence | discriminate].
  - intros ->. simpl. eexists. split; reflexivity.
Qed.

(** X15: inside an application context the session is built once: after
    a successful call the session is stored in [g], whose other
    attributes are untouched, and every later call returns that very
    session and changes nothing, even under a changed configuration.
    Outside an application context nothing is stored. *)
Theorem current_session_is_cached ctx session ctx' :
  current_session ctx = (Ok session, ctx') →
  config ctx' = config ctx
  ∧ (g ctx = None → ctx' = ctx ∧ get_session (config ctx) = Ok session)
  ∧ (∀ attributes,
       g ctx = Some attributes →
       ∃ attributes',
         g ctx' = Some attributes'
         ∧ attributes' !! "fulltext" = Some session
         ∧ (∀ name, name ≠ "fulltext" →
              attributes' !! name = attributes !! name)
         ∧ ∀ config',
             current_session {| config := config'; g := g ctx' |}
             = (Ok session, {| config := config'; g := g ctx' |})).
Proof.
  unfold current_session. destruct ctx as [cfg [attributes|]]; simpl.
  - destruct (attributes !! "fulltext") as [cached|] eqn:Hcached.
    + intros [= <- <-]. simpl. split; [reflexivity|].
      split; [discriminate|].
      intros ? [= <-]. exists attributes.
      split; [reflexivity|]. split; [exact Hcached|]. split; [reflexivity|].
      intros config'. rewrite Hcached. reflexivity.
    + destruct (get_session cfg) as [built|e]; [|discriminate].
      intros [= <- <-]. simpl. split; [reflexivity|].
      split; [discriminate|].
      intros ? [= <-]. eexists. split; [reflexivity|].
      split; [apply lookup_insert_eq|].
      split; [intros name Hname; apply lookup_insert_ne; congruence|].
      intros config'. rewrite lookup_insert_eq. reflexivity.
  - intros [= Hsession <-]. simpl. split; [reflexivity|].
    split; [split; [reflexivity | exact Hsession] | discriminate].
Qed.

(** X16: the module-level [retrieve] gets its session before it looks
    at the identifier.  With no session cached yet, the empty identifier
    raises [ValueError] and sends nothing, but leaves the session it
    built from the configuration cached in [g]; and under a
    configuration whose endpoint is the empty string every identifier,
    valid or not, fails with the [IndexError] of the constructor, nothing
    being sent or cached. *)
Theorem module_retrieve_builds_session_first (cfg : gmap string string)
    (attributes : gmap string FulltextSession) (sent : list string) :
  attributes !! "fulltext" = None →
  (cfg !! FULLTEXT_ENDPOINT ≠ Some "" →
     ∃ session,
       get_session cfg = Ok session
       ∧ call "" {| config := cfg; g := Some attributes |} sent
         = (Raise (ValueError "Invalid value for document_id" []),
            {| config := cfg;
               g := Some (<["fulltext" := session]> attributes) |},
            sent))
  ∧ (cfg !! FULLTEXT_ENDPOINT = Some "" →
     ∀ document_id,
       call document_id {| config := cfg; g := Some attributes |} sent
       = (Raise IndexError, {| config := cfg; g := Some attributes |}, sent)).
Proof.
  intros Hfresh. split.
  - intros Hne.
    pose proof (init_cases (default default_endpoint (cfg !! FULLTEXT_ENDPOINT)))
      as Hep.
    destruct (last_char _) as [c|].
    + destruct Hep as (session & Hinit & _). exists session.
      split; [exact Hinit|].
      unfold module_retrieve, current_session. simpl.
      rewrite Hfresh. unfold get_session. rewrite Hinit. reflexivity.
    + destruct Hep as [Hempty _].
      destruct (cfg !! FULLTEXT_ENDPOINT) as [ep|]; simpl in Hempty;
        [subst ep; congruence | discriminate].
  - intros Hempty document_id.
    unfold module_retrieve, current_session. simpl.
    rewrite Hfresh. unfold get_session. rewrite Hempty. reflexivity.
Qed.


End fulltext_more.

(** *** Sample runs of the module-level functions *)

Lemma init_is_idempotent_witness :
  fulltext.__init__ "https://fulltext.arxiv.org/fulltext"
  = Ok default_session
  ∧ fulltext.__init__ (fulltext.endpoint default_session)
    = Ok default_session.
Proof.
  split; [reflexivity|].
  exact (init_is_idempotent "https://fulltext.arxiv.org/fulltext"
           default_session eq_refl).
Defined.

Lemma init_app_sets_a_default_only_witness :
  "SERVER_NAME" ≠ fulltext.FULLTEXT_ENDPOINT
  ∧ fulltext.init_app staging_config !! "SERVER_NAME"
    = staging_config !! "SERVER_NAME"
  ∧ fulltext.init_app staging_config !! fulltext.FULLTEXT_ENDPOINT
    = Some "https://staging.arxiv.org/fulltext".
Proof.
  assert ("SERVER_NAME" ≠ fulltext.FULLTEXT_ENDPOINT) as Hne by discriminate.
  split; [exact Hne|]. split.
  - exact (proj1 (proj2 (init_app_sets_a_default_only staging_config))
             "SERVER_NAME" Hne).
  - exact (proj1 (init_app_sets_a_default_only staging_config)).
Defined.

Lemma get_session_outcomes_witness :
  staging_config !! fulltext.FULLTEXT_ENDPOINT ≠ Some ""
  ∧ (∃ session,
       fulltext.get_session staging_config = Ok session
       ∧ fulltext.last_char (fulltext.endpoint session) = Some fulltext.slash)
  ∧ (∅ : gmap string string) !! fulltext.FULLTEXT_ENDPOINT = None
  ∧ ∃ session,
      fulltext.get_session ∅ = Ok session
      ∧ fulltext.endpoint session = fulltext.default_endpoint.
Proof.
  assert (staging_config !! fulltext.FULLTEXT_ENDPOINT ≠ Some "") as Hne
    by (vm_compute; discriminate).
  split; [exact Hne|]. split.
  - exact (proj1 (proj2 (get_session_outcomes staging_config)) Hne).
  - split; [reflexivity|].
    exact (proj2 (proj2 (get_session_outcomes ∅)) eq_refl).
Defined.

Lemma current_session_is_cached_witness :
  fulltext.current_session
    {| fulltext.config := staging_config; fulltext.g := Some ∅ |}
  = (Ok staging_session,
     {| fulltext.config := staging_config;
        fulltext.g := Some {["fulltext" := staging_session]} |})
  ∧ fulltext.current_session
      {| fulltext.config := ∅;
         fulltext.g := Some {["fulltext" := staging_session]} |}
    = (Ok staging_session,
       {| fulltext.config := ∅;
          fulltext.g := Some {["fulltext" := staging_session]} |}).
Proof.
  assert (fulltext.current_session
            {| fulltext.config := staging_config; fulltext.g := Some ∅ |}
          = (Ok staging_session,
             {| fulltext.config := staging_config;
                fulltext.g := Some {["fulltext" := staging_session]} |}))
    as Hfirst by reflexivity.
  split; [exact Hfirst|].
  destruct (proj2 (proj2 (current_session_is_cached _ _ _ Hfirst))
              ∅ eq_refl) as (attributes' & Hg & _ & _ & Hlater).
  exact (Hlater ∅).
Defined.

Lemma module_retrieve_builds_session_first_witness :
  (∅ : gmap string fulltext.FulltextSession) !! "fulltext" = None
  ∧ staging_config !! fulltext.FULLTEXT_ENDPOINT ≠ Some ""
  ∧ (∃ session,
       fulltext.get_session staging_config = Ok session
       ∧ fulltext.module_retrieve String.append object_server
           (list (string * fulltext.Json)) any_fulltext ""
           {| fulltext.config := staging_config; fulltext.g := Some ∅ |} []
         = (Raise (ValueError "Invalid value for document_id" []),
            {| fulltext.config := staging_config;
               fulltext.g := Some (<["fulltext" := session]> ∅) |},
            []))
  ∧ empty_endpoint_config !! fulltext.FULLTEXT_ENDPOINT = Some ""
  ∧ fulltext.module_retrieve String.append object_server
      (list (string * fulltext.Json)) any_fulltext "1234.5678v1"
      {| fulltext.config := empty_endpoint_config; fulltext.g := Some ∅ |} []
    = (Raise IndexError,
       {| fulltext.config := empty_endpoint_config; fulltext.g := Some ∅ |},
       []).
Proof.
  assert (staging_config !! fulltext.FULLTEXT_ENDPOINT ≠ Some "") as Hne
    by (vm_compute; discriminate).
  split; [reflexivity|]. split; [exact Hne|]. split.
  - exact (proj1 (module_retrieve_builds_session_first String.append
                    object_server (list (string * fulltext.Json)) any_fulltext
                    staging_config ∅ [] eq_refl) Hne).
  - split; [reflexivity|].
    exact (proj2 (module_retrieve_builds_session_first String.append
                    object_server (list (string * fulltext.Json)) any_fulltext
                    empty_endpoint_config ∅ [] eq_refl) eq_refl
             "1234.5678v1").
Defined.

